(** * Bearer-token verification of the backend ([src/backend/auth.py])

    A shallow embedding of [get_public_keys] and [verify_token] of the
    final backend version, with the earlier [Module 02] key fetch for
    comparison.  The JWT library (PyJWT) is a record of functions, the
    network is a scripted list of outcomes consumed one per request, and
    the effects the claims talk about (requests, sleeps, header parses,
    unverified decodes, signature checks) are appended to an event log. *)

From Stdlib Require Import String List ZArith Bool Lia.
Import ListNotations.
Open Scope string_scope.

(* ------------------------------------------------------------------ *)
(** ** Python values and claims mappings *)

(** A decoded JSON value: strings, integers, booleans, [null], arrays
    and objects (their entries in order).  Numbers with a fraction part
    are not modelled. *)
#[warnings="-register-all"]
Inductive Value : Type :=
| VStr (s : string)
| VNum (z : Z)
| VBool (b : bool)
| VNull
| VList (l : list Value)
| VObj (kvs : list (string * Value)).

(** Python truthiness. *)
Definition truthy (v : Value) : bool :=
  match v with
  | VStr s => negb (String.eqb s "")
  | VNum z => negb (Z.eqb z 0)
  | VBool b => b
  | VNull => false
  | VList l => negb (Nat.eqb (length l) 0)
  | VObj kvs => negb (Nat.eqb (length kvs) 0)
  end.

(** [str(x)] of a list is [repr(x)]: elements by their [repr], strings
    quoted with a single quote unless they contain one and no double
    quote (then with a double quote), the quote and the
    backslash escaped, [\t], [\n], [\r] and the other control
    characters written as escapes.  A character is one [ascii]; bytes
    from 128 up are kept as they are. *)
Definition hex_digit (n : nat) : Ascii.ascii :=
  if Nat.ltb n 10 then Ascii.ascii_of_nat (48 + n) else Ascii.ascii_of_nat (87 + n).

Definition backslash : Ascii.ascii := Ascii.ascii_of_nat 92.

Definition repr_char (q a : Ascii.ascii) : string :=
  let n := Ascii.nat_of_ascii a in
  if (Ascii.eqb a q || Ascii.eqb a backslash)%bool then String backslash (String a EmptyString)
  else if Nat.eqb n 9 then String backslash "t"
  else if Nat.eqb n 10 then String backslash "n"
  else if Nat.eqb n 13 then String backslash "r"
  else if (Nat.ltb n 32 || Nat.eqb n 127)%bool
  then String backslash (String (Ascii.ascii_of_nat 120) (String (hex_digit (n / 16))
                                            (String (hex_digit (n mod 16)) EmptyString)))
  else String a EmptyString.

Fixpoint repr_chars (q : Ascii.ascii) (s : string) : string :=
  match s with
  | EmptyString => EmptyString
  | String a s' => repr_char q a ++ repr_chars q s'
  end.

Fixpoint has_char (a : Ascii.ascii) (s : string) : bool :=
  match s with
  | EmptyString => false
  | String b s' => (Ascii.eqb a b || has_char a s')%bool
  end.

Definition str_repr (s : string) : string :=
  let sq := Ascii.ascii_of_nat 39 in
  let dq := Ascii.ascii_of_nat 34 in
  let q := if (has_char sq s && negb (has_char dq s))%bool then dq else sq in
  String q (repr_chars q s ++ String q EmptyString).

Fixpoint uint_str (u : Decimal.uint) : string :=
  match u with
  | Decimal.Nil => ""
  | Decimal.D0 u => "0" ++ uint_str u | Decimal.D1 u => "1" ++ uint_str u
  | Decimal.D2 u => "2" ++ uint_str u | Decimal.D3 u => "3" ++ uint_str u
  | Decimal.D4 u => "4" ++ uint_str u | Decimal.D5 u => "5" ++ uint_str u
  | Decimal.D6 u => "6" ++ uint_str u | Decimal.D7 u => "7" ++ uint_str u
  | Decimal.D8 u => "8" ++ uint_str u | Decimal.D9 u => "9" ++ uint_str u
  end.

Definition int_str (z : Z) : string :=
  match Z.to_int z with
  | Decimal.Pos u => uint_str u
  | Decimal.Neg u => "-" ++ uint_str u
  end.

Fixpoint py_repr (v : Value) : string :=
  match v with
  | VStr s => str_repr s
  | VNum z => int_str z
  | VBool b => if b then "True" else "False"
  | VNull => "None"
  | VList l => "[" ++ String.concat ", " (map py_repr l) ++ "]"
  | VObj kvs =>
      "{" ++ String.concat ", " (map (fun '(k, v) => str_repr k ++ ": " ++ py_repr v) kvs)
      ++ "}"
  end.

(** [a or b] on already-evaluated operands. *)
Definition py_or (a b : Value) : Value := if truthy a then a else b.

(** A decoded payload: a JSON object, keys assumed distinct. *)
Definition Claims := list (string * Value).

(** [d.get(k)]: [None] (here [VNull]) when the key is absent. *)
Fixpoint get (c : Claims) (k : string) : Value :=
  match c with
  | [] => VNull
  | (k', v) :: rest => if String.eqb k k' then v else get rest k
  end.

(** [if d:] on a dict: non-empty. *)
Definition claims_truthy (c : Claims) : bool :=
  match c with [] => false | _ => true end.

(** [d.get(k, default)] needs to know whether [k] is present. *)
Fixpoint lookup (c : Claims) (k : string) : option Value :=
  match c with
  | [] => None
  | (k', v) :: rest => if String.eqb k k' then Some v else lookup rest k
  end.

(** [k in d]. *)
Definition has_key (c : Claims) (k : string) : bool :=
  existsb (fun kv => String.eqb (fst kv) k) c.

(* ------------------------------------------------------------------ *)
(** ** Keys, headers, strategies *)

(** A JWK as fetched: its ["kid"] entry ([VNull] when absent) and the
    rest of its fields, kept opaque. *)
Record Jwk : Type := { jwk_kid : Value; jwk_material : string }.

(** The parsed discovery document: its ["keys"] entry if present and
    the number of other entries (for the truthiness of the dict). *)
Record JwksDoc : Type := { doc_keys : option (list Jwk); doc_other : nat }.

Definition doc_truthy (d : JwksDoc) : bool :=
  match doc_keys d with Some _ => true | None => Nat.ltb 0 (doc_other d) end.

(** [if jwks:] where [jwks] is [None] or a dict. *)
Definition jwks_truthy (j : option JwksDoc) : bool :=
  match j with None => false | Some d => doc_truthy d end.

(** [jwks.get('keys', [])]. *)
Definition jwks_keys (d : JwksDoc) : list Jwk :=
  match doc_keys d with Some ks => ks | None => [] end.

(** A verification key produced by [RSAAlgorithm.from_jwk]. *)
Definition Key := string.

(** The unverified header: ['kid'] (a string when present, PyJWT checks
    it) and ['alg']. *)
Record Header : Type := { hd_kid : option string; hd_alg : option string }.

(** [unverified_header.get('alg', 'RS256')]. *)
Definition header_alg (h : Header) : string :=
  match hd_alg h with Some a => a | None => "RS256" end.

(** [key.get('kid') == kid] with [kid] a string or [None]. *)
Definition kid_eq (v : Value) (kid : option string) : bool :=
  match v, kid with
  | VNull, None => true
  | VStr s, Some s' => String.eqb s s'
  | _, _ => false
  end.

(** One entry of [validation_strategies]: the keyword arguments passed
    to [jwt.decode] besides the token and the key. *)
Record Strategy : Type := {
  st_algorithms : list string;
  st_audience : option string;
  st_issuer : option string;
  st_options : list (string * bool)
}.

(** The credentials read from Key Vault. *)
Record Config : Type := { CLIENT_ID : string; TENANT_ID : string }.

Definition JWKS_URL (cfg : Config) : string :=
  "https://login.microsoftonline.com/" ++ TENANT_ID cfg ++ "/discovery/v2.0/keys".

Definition validation_strategies (cfg : Config) (alg : string) : list Strategy :=
  [ (* Strategy 1: full validation with expected audience and issuer *)
    {| st_algorithms := [alg]; st_audience := Some (CLIENT_ID cfg);
       st_issuer := Some ("https://login.microsoftonline.com/" ++ TENANT_ID cfg ++ "/v2.0");
       st_options := [] |};
    (* Strategy 2: common issuer *)
    {| st_algorithms := [alg]; st_audience := Some (CLIENT_ID cfg);
       st_issuer := Some "https://login.microsoftonline.com/common/v2.0";
       st_options := [] |};
    (* Strategy 3: no audience validation *)
    {| st_algorithms := [alg]; st_audience := None;
       st_issuer := Some ("https://login.microsoftonline.com/" ++ TENANT_ID cfg ++ "/v2.0");
       st_options := [("verify_aud", false)] |};
    (* Strategy 4: no issuer validation *)
    {| st_algorithms := [alg]; st_audience := Some (CLIENT_ID cfg);
       st_issuer := None; st_options := [("verify_iss", false)] |};
    (* Strategy 5: signature only *)
    {| st_algorithms := [alg]; st_audience := None; st_issuer := None;
       st_options := [("verify_aud", false); ("verify_iss", false)] |} ].

(** The parts of PyJWT the code calls.  [lib_header] is
    [jwt.get_unverified_header] ([None]: it raises), [lib_payload] is
    [jwt.decode(token, options={"verify_signature": False})] ([None]: it
    raises), [lib_accepts] says whether [jwt.decode] with a key and a
    strategy's arguments passes its signature and claim checks (it then
    returns the payload), [lib_from_jwk] is [RSAAlgorithm.from_jwk]. *)
Record Lib : Type := {
  lib_header : string -> option Header;
  lib_payload : string -> option Claims;
  lib_accepts : string -> Key -> Strategy -> bool;
  lib_from_jwk : Jwk -> option Key
}.

(** [jwt.decode(jwt=token, key=public_key, **strategy)]. *)
Definition jwt_decode_verified (lib : Lib) (tok : string) (k : Key) (st : Strategy)
  : option Claims :=
  if lib_accepts lib tok k st then lib_payload lib tok else None.

(* ------------------------------------------------------------------ *)
(** ** Effects: network, log, exceptions *)

(** What one [requests.get] of a discovery endpoint ends in. *)
Inductive Outcome : Type :=
| OTimeout
| OConnErr
| OHttpErr (status : Z)
| OBadBody            (* [.json()], [.get] or [len] raises *)
| OJson (d : JwksDoc).

Definition is_json (o : Outcome) : bool :=
  match o with OJson _ => true | _ => false end.

Inductive Event : Type :=
| EvRequest (url : string)
| EvSleep (secs : Z)
| EvHeader
| EvDecodeUnverified
| EvFromJwk
| EvVerify (strategy : nat) (passed : bool).

Record World : Type := { net : list Outcome; log : list Event }.

(** Exceptions: [HTTPException] and anything else. *)
Inductive Exc : Type :=
| HTTPExc (status : Z) (detail : string)
| OtherExc (what : string).

Definition M (A : Type) : Type := World -> (Exc + A) * World.

Definition ret {A} (a : A) : M A := fun w => (inr a, w).

Definition bind {A B} (m : M A) (f : A -> M B) : M B :=
  fun w => match m w with
           | (inl e, w') => (inl e, w')
           | (inr a, w') => f a w'
           end.

Definition throw {A} (e : Exc) : M A := fun w => (inl e, w).

(** [try: m except Exception as e: h(e)]. *)
Definition catch {A} (m : M A) (h : Exc -> M A) : M A :=
  fun w => match m w with
           | (inl e, w') => h e w'
           | r => r
           end.

Notation "x <- c1 ;; c2" := (bind c1 (fun x => c2))
  (at level 61, c1 at next level, right associativity).
Notation "c1 ;; c2" := (bind c1 (fun _ => c2))
  (at level 61, right associativity).

Definition emit (e : Event) : M unit :=
  fun w => (inr tt, {| net := net w; log := log w ++ [e] |}).

(** The next request's outcome; once the script is exhausted every
    request fails to connect. *)
Definition recv : M Outcome :=
  fun w => match net w with
           | [] => (inr OConnErr, w)
           | o :: rest => (inr o, {| net := rest; log := log w |})
           end.

(* ------------------------------------------------------------------ *)
(** ** [get_public_keys] *)

(** [for attempt in range(max_retries)]: request, return the parsed
    document on success, otherwise sleep [2 ** attempt] unless this was
    the last attempt.  Every exception is caught inside the loop. *)
Fixpoint gpk_loop (url : string) (max_retries : nat) (attempts : list nat)
  : M (option JwksDoc) :=
  match attempts with
  | [] => ret None
  | attempt :: rest =>
      emit (EvRequest url) ;;
      o <- recv ;;
      match o with
      | OJson d => ret (Some d)
      | _ =>
          (if Nat.ltb attempt (max_retries - 1)
           then emit (EvSleep (2 ^ Z.of_nat attempt)) else ret tt) ;;
          gpk_loop url max_retries rest
      end
  end.

Definition get_public_keys (cfg : Config) : M (option JwksDoc) :=
  let max_retries := 3%nat in
  gpk_loop (JWKS_URL cfg) max_retries (seq 0 max_retries).

(** The JWKS loop of [verify_token]: up to three calls of
    [get_public_keys], stopping at a truthy result.  [get_public_keys]
    never raises, so the [except] branch of the loop is dead. *)
Fixpoint fetch_loop (cfg : Config) (attempts : list nat) (jwks : option JwksDoc)
  : M (option JwksDoc) :=
  match attempts with
  | [] => ret jwks
  | _ :: rest =>
      j <- get_public_keys cfg ;;
      if jwks_truthy j then ret j else fetch_loop cfg rest j
  end.

Definition fetch_jwks (cfg : Config) : M (option JwksDoc) :=
  fetch_loop cfg (seq 0 3) None.

(* ------------------------------------------------------------------ *)
(** ** [verify_token] *)

(** The key loop: the first key whose ['kid'] equals the header's and
    whose conversion succeeds; a failed conversion moves on. *)
Fixpoint select_key (lib : Lib) (kid : option string) (keys : list Jwk)
  : M (option Key) :=
  match keys with
  | [] => ret None
  | key :: rest =>
      if kid_eq (jwk_kid key) kid then
        emit EvFromJwk ;;
        match lib_from_jwk lib key with
        | Some pk => ret (Some pk)
        | None => select_key lib kid rest
        end
      else select_key lib kid rest
  end.

(** The strategy loop, [enumerate(validation_strategies, 1)]: each
    attempt is logged with its index and whether it passed; the loop
    breaks at the first [jwt.decode] that returns. *)
Fixpoint run_strategies (dec : Strategy -> option Claims) (i : nat)
  (sts : list Strategy) : M (option Claims) :=
  match sts with
  | [] => ret None
  | st :: rest =>
      match dec st with
      | Some c => emit (EvVerify i true) ;; ret (Some c)
      | None => emit (EvVerify i false) ;; run_strategies dec (S i) rest
      end
  end.

(** [jwt.decode(token, options={"verify_signature": False})], raising
    [err] when it fails. *)
Definition unverified_decode (lib : Lib) (tok : string) (err : Exc) : M Claims :=
  emit EvDecodeUnverified ;;
  match lib_payload lib tok with
  | Some c => ret c
  | None => throw err
  end.

(** The state of the local [public_key] when the identity is built:
    never assigned (the JWKS fallback branch), or assigned. *)
Inductive PkState : Type :=
| PkUnbound
| PkBound (pk : option Key).

Definition TOKEN_EXPIRED_MSG := "Token has expired".

(** [datetime.fromtimestamp(exp, tz=timezone.utc)], as whole seconds;
    it raises outside years 1..9999 and on non-numbers ([bool] is an
    [int]). *)
Definition fromtimestamp (v : Value) : M Z :=
  let in_range z := (Z.leb (-62135596800) z && Z.leb z 253402300799)%bool in
  match v with
  | VNum z => if in_range z then ret z else throw (OtherExc "ValueError")
  | VBool b => ret (if b then 1 else 0)%Z
  | _ => throw (OtherExc "TypeError")
  end.

(** A truthy [exp] on which [fromtimestamp] raises: a non-empty string,
    array or object, or a number outside [datetime]'s range. *)
Definition bad_exp (v : Value) : bool :=
  truthy v &&
  match v with
  | VNum z => negb (Z.leb (-62135596800) z && Z.leb z 253402300799)
  | VBool _ => false
  | _ => true
  end.

(** Lazy [a or <rest>]: the rest is only evaluated when [a] is falsy. *)
Definition por (a : Value) (k : M Value) : M Value :=
  if truthy a then ret a else k.

(** ["user_" + str(sub[:8] if sub else 'unknown')]: a string or a list
    slices (the list is then printed); slicing a number, a boolean or a
    dict raises. *)
Definition synth_user (c : Claims) : M Value :=
  let sub := get c "sub" in
  if truthy sub then
    match sub with
    | VStr s => ret (VStr ("user_" ++ substring 0 8 s))
    | VList l => ret (VStr ("user_" ++ py_repr (VList (firstn 8 l))))
    | _ => throw (OtherExc "TypeError")
    end
  else ret (VStr "user_unknown").

Record Details : Type := {
  d_sub : Value; d_aud : Value; d_iss : Value; d_tenant : Value;
  d_validated : string
}.

(** The returned dict: ["user"], ["roles"], ["email"], and the fields
    only the non-demo dict has. *)
Record UserInfo : Type := {
  ui_user : Value;
  ui_roles : list string;
  ui_email : Value;
  ui_details : option Details
}.

Definition demo_user_info : UserInfo :=
  {| ui_user := VStr "demo-user"; ui_roles := ["user"];
     ui_email := VStr "demo@example.com"; ui_details := None |}.

(** The [user_info] literal, its entries evaluated in order. *)
Definition build_user_info (c : Claims) (pk : PkState) : M UserInfo :=
  user <- por (get c "name")
            (por (get c "preferred_username")
              (por (get c "unique_name")
                (por (get c "email")
                  (por (get c "upn") (synth_user c))))) ;;
  let email := py_or (get c "email")
                 (py_or (get c "preferred_username")
                   (py_or (get c "upn") (VStr ""))) in
  validated <- match pk with
               | PkUnbound => throw (OtherExc "UnboundLocalError")
               | PkBound (Some _) => ret "full"
               | PkBound None => ret "unverified"
               end ;;
  ret {| ui_user := user; ui_roles := ["user"]; ui_email := email;
         ui_details := Some {| d_sub := get c "sub"; d_aud := get c "aud";
                               d_iss := get c "iss"; d_tenant := get c "tid";
                               d_validated := validated |} |}.

(** Lines 223-262: the expiration check and the identity; [now] is
    [datetime.now(timezone.utc)] in microseconds since the epoch. *)
Definition finalize (now : Z) (c : Claims) (pk : PkState) : M UserInfo :=
  if claims_truthy c then
    let exp := get c "exp" in
    (if truthy exp then
       exp_dt <- fromtimestamp exp ;;
       if Z.ltb (exp_dt * 1000000) now
       then throw (HTTPExc 401 TOKEN_EXPIRED_MSG)
       else ret tt
     else ret tt) ;;
    build_user_info c pk
  else throw (HTTPExc 401 "Invalid token").

Definition DEMO_TOKEN := "demo-token".

Definition parse_header (lib : Lib) (tok : string) : M Header :=
  emit EvHeader ;;
  match lib_header lib tok with
  | Some h => ret h
  | None => throw (HTTPExc 401 "Invalid token format")
  end.

(** The body of the outer [try]. *)
Definition verify_body (lib : Lib) (cfg : Config) (now : Z) (tok : string)
  : M UserInfo :=
  if String.eqb tok DEMO_TOKEN then ret demo_user_info else
  (* payload preview, its exception swallowed *)
  emit EvDecodeUnverified ;;
  hdr <- parse_header lib tok ;;
  jwks <- fetch_jwks cfg ;;
  match jwks with
  | Some d =>
      if doc_truthy d then
        pk <- select_key lib (hd_kid hdr) (jwks_keys d) ;;
        match pk with
        | None =>
            decoded <- unverified_decode lib tok (HTTPExc 401 "Invalid token signature") ;;
            finalize now decoded (PkBound None)
        | Some k =>
            r <- run_strategies (jwt_decode_verified lib tok k) 1
                   (validation_strategies cfg (header_alg hdr)) ;;
            let fallback :=
              unverified_decode lib tok (HTTPExc 401 "Token validation failed") in
            decoded <- match r with
                       | Some c => if claims_truthy c then ret c else fallback
                       | None => fallback
                       end ;;
            finalize now decoded (PkBound (Some k))
        end
      else
        decoded <- unverified_decode lib tok (HTTPExc 500 "Authentication service unavailable") ;;
        finalize now decoded PkUnbound
  | None =>
      decoded <- unverified_decode lib tok (HTTPExc 500 "Authentication service unavailable") ;;
      finalize now decoded PkUnbound
  end.

Inductive VResult : Type :=
| Accepted (ui : UserInfo)
| Rejected (status : Z) (detail : string).

(** The outer [except HTTPException: raise] / [except Exception]. *)
Definition to_vresult (r : Exc + UserInfo) : VResult :=
  match r with
  | inr ui => Accepted ui
  | inl (HTTPExc s d) => Rejected s d
  | inl (OtherExc _) => Rejected 401 "Invalid authentication credentials"
  end.

Definition verify_token (lib : Lib) (cfg : Config) (now : Z) (tok : string)
  (w : World) : VResult * World :=
  let (r, w') := verify_body lib cfg now tok w in (to_vresult r, w').

(** A call on a fresh log. *)
Definition verify_run (lib : Lib) (cfg : Config) (now : Z) (tok : string)
  (responses : list Outcome) : VResult * World :=
  verify_token lib cfg now tok {| net := responses; log := [] |}.

(* ------------------------------------------------------------------ *)
(** ** The earlier key fetch ([src/Module 02/backend/auth.py]) *)

Module M02.

(** [response.json()]: a JSON object, or some other JSON value. *)
Inductive Body : Type :=
| BDoc (d : JwksDoc)
| BNonObject.

Definition endpoints (cfg : Config) : list string :=
  [ "https://login.microsoftonline.com/" ++ TENANT_ID cfg ++ "/discovery/v2.0/keys";
    "https://login.microsoftonline.com/common/discovery/v2.0/keys" ].

(** [for endpoint in endpoints]: one request each, no retry and no
    sleep; a generic [Exception] once all have failed.  [OBadBody]
    stands for a body that is not JSON. *)
Fixpoint try_endpoints (eps : list string) : M Body :=
  match eps with
  | [] => throw (OtherExc "Failed to retrieve JWKS from all endpoints")
  | e :: rest =>
      emit (EvRequest e) ;;
      o <- recv ;;
      match o with
      | OJson d => ret (BDoc d)
      | _ => try_endpoints rest
      end
  end.

Definition get_public_keys (cfg : Config) : M Body :=
  try_endpoints (endpoints cfg).

Definition DEMO_TOKEN := "demo-token".
Definition INVALID_TOKEN_MSG := "Invalid token signature".

(** [validation_configs], each passed with [algorithms=[alg]]. *)
Definition validation_configs (cfg : Config) (alg : string) : list Strategy :=
  [ {| st_algorithms := [alg]; st_audience := Some (CLIENT_ID cfg);
       st_issuer := Some ("https://login.microsoftonline.com/" ++ TENANT_ID cfg ++ "/v2.0");
       st_options := [] |};
    {| st_algorithms := [alg]; st_audience := Some (CLIENT_ID cfg);
       st_issuer := Some ("https://sts.windows.net/" ++ TENANT_ID cfg ++ "/");
       st_options := [] |};
    {| st_algorithms := [alg]; st_audience := Some ("api://" ++ CLIENT_ID cfg);
       st_issuer := Some ("https://login.microsoftonline.com/" ++ TENANT_ID cfg ++ "/v2.0");
       st_options := [] |} ].

(** The relaxed decode: signature (and expiry) only. *)
Definition relaxed_strategy (alg : string) : Strategy :=
  {| st_algorithms := [alg]; st_audience := None; st_issuer := None;
     st_options := [("verify_aud", false); ("verify_iss", false)] |}.

(** [f"user_{decoded_token.get('sub', 'unknown')[:8]}"]: the default
    only replaces an absent [sub]; a string or a list slices (a list is
    formatted with [str]); slicing anything else raises. *)
Definition synth_user (c : Claims) : M Value :=
  match lookup c "sub" with
  | None => ret (VStr "user_unknown")
  | Some (VStr s) => ret (VStr ("user_" ++ substring 0 8 s))
  | Some (VList l) => ret (VStr ("user_" ++ py_repr (VList (firstn 8 l))))
  | Some _ => throw (OtherExc "TypeError")
  end.

(** The returned dict: ["user"], ["roles"], ["email"], and ["sub"] and
    ["tenant"], which only the non-demo dict has. *)
Record UserInfo : Type := {
  u_user : Value;
  u_roles : list string;
  u_email : Value;
  u_sub_tenant : option (Value * Value)
}.

Definition demo_user_info : UserInfo :=
  {| u_user := VStr "demo-user"; u_roles := ["user"];
     u_email := VStr "demo@example.com"; u_sub_tenant := None |}.

Definition build_user_info (c : Claims) : M UserInfo :=
  user <- por (get c "name")
            (por (get c "preferred_username")
              (por (get c "email") (synth_user c))) ;;
  let email := py_or (get c "email")
                 (py_or (get c "preferred_username")
                   (py_or (get c "upn") (VStr ""))) in
  ret {| u_user := user; u_roles := ["user"]; u_email := email;
         u_sub_tenant := Some (get c "sub", get c "tid") |}.

(** The body of [verify_token]; it has no outer [try]. *)
Definition verify_body (lib : Lib) (cfg : Config) (tok : string) : M UserInfo :=
  if String.eqb tok DEMO_TOKEN then ret demo_user_info else
  hdr <- parse_header lib tok ;;
  jwks <- catch (get_public_keys cfg)
                (fun _ => throw (HTTPExc 401 "Unable to validate token")) ;;
  keys <- match jwks with
          | BDoc d => ret (jwks_keys d)
          | BNonObject => throw (OtherExc "AttributeError")
          end ;;
  pk <- select_key lib (hd_kid hdr) keys ;;
  match pk with
  | None => throw (HTTPExc 401 INVALID_TOKEN_MSG)
  | Some k =>
      let dec := jwt_decode_verified lib tok k in
      r <- run_strategies dec 1 (validation_configs cfg (header_alg hdr)) ;;
      let relaxed :=
        r2 <- run_strategies dec 4 [relaxed_strategy (header_alg hdr)] ;;
        match r2 with
        | Some c => ret c
        | None => unverified_decode lib tok (HTTPExc 401 "Token validation failed")
        end in
      decoded <- match r with
                 | Some c => if claims_truthy c then ret c else relaxed
                 | None => relaxed
                 end ;;
      build_user_info decoded
  end.

Inductive VResult : Type :=
| Accepted (ui : UserInfo)
| Rejected (status : Z) (detail : string).

(** FastAPI answers an exception that is not an [HTTPException] with a
    500. *)
Definition to_vresult (r : Exc + UserInfo) : VResult :=
  match r with
  | inr ui => Accepted ui
  | inl (HTTPExc s d) => Rejected s d
  | inl (OtherExc _) => Rejected 500 "Internal Server Error"
  end.

Definition verify_token (lib : Lib) (cfg : Config) (tok : string) (w : World)
  : VResult * World :=
  let (r, w') := verify_body lib cfg tok w in (to_vresult r, w').

End M02.

(* ------------------------------------------------------------------ *)
(** ** [exchange_code_for_token] (the same in both versions) *)

(** [app.acquire_token_by_authorization_code(code, ...)]: the result
    dict, or [None] when MSAL raises. *)
Definition Acquire := string -> option Claims.

(** The [HTTPException(400)] raised inside the [try] is an [Exception]
    too, so the handler turns it into the 500. *)
Definition exchange_code_for_token (acquire : Acquire) (code : string) : M Claims :=
  catch (match acquire code with
         | None => throw (OtherExc "MSAL error")
         | Some result =>
             if has_key result "access_token" then ret result
             else throw (HTTPExc 400 "Failed to exchange code for token")
         end)
        (fun _ => throw (HTTPExc 500 "Token exchange failed")).

(* ------------------------------------------------------------------ *)
(** ** Concrete inputs *)

Definition cfg_ex : Config := {| CLIENT_ID := "client-1"; TENANT_ID := "tenant-1" |}.

(** Mid-November 2023, in microseconds. *)
Definition now_ex : Z := 1700000000000000.

(** A library knowing three tokens: ["tok.alice"] signed by the key
    ["k1"] for strategy 3 only, ["tok.expired0"] with [exp = 0] signed by
    ["k1"] (every strategy rejects it as expired), and ["tok.old"] that
    expired in 2020, and ["tok.carol"] with no [exp] and no signature any
    key accepts.  Every token's header names the key ["k1"]. *)
Definition alice_claims : Claims :=
  [("sub", VStr "abcdefgh1234"); ("name", VStr "Alice");
   ("email", VStr "alice@example.com"); ("exp", VNum 1800000000)].

Definition exp0_claims : Claims :=
  [("sub", VStr "eve12345xyz"); ("name", VStr "Eve"); ("exp", VNum 0)].

Definition old_claims : Claims :=
  [("sub", VStr "bob"); ("name", VStr "Bob"); ("exp", VNum 1600000000)].

Definition carol_claims : Claims :=
  [("sub", VStr "abcdefgh1234"); ("email", VStr "carol@example.com")].

Definition lib_ex : Lib := {|
  lib_header := fun t =>
    if String.eqb t "tok.alice" || String.eqb t "tok.expired0" || String.eqb t "tok.old"
       || String.eqb t "tok.carol"
    then Some {| hd_kid := Some "k1"; hd_alg := Some "RS256" |} else None;
  lib_payload := fun t =>
    if String.eqb t "tok.alice" then Some alice_claims
    else if String.eqb t "tok.expired0" then Some exp0_claims
    else if String.eqb t "tok.old" then Some old_claims
    else if String.eqb t "tok.carol" then Some carol_claims
    else None;
  lib_accepts := fun t k st =>
    String.eqb t "tok.alice" && String.eqb k "pem-k1" &&
    match st_audience st with None => true | Some _ => false end &&
    match st_issuer st with Some _ => true | None => false end;
  lib_from_jwk := fun j =>
    match jwk_kid j with VStr s => Some ("pem-" ++ s)%string | _ => None end
|}.

Definition jwk_k1 : Jwk := {| jwk_kid := VStr "k1"; jwk_material := "n,e" |}.
Definition jwk_k2 : Jwk := {| jwk_kid := VStr "k2"; jwk_material := "n,e" |}.

(** Discovery answers: the key set holding ["k1"], and one that only
    holds ["k2"]. *)
Definition net_k1 : list Outcome := [OJson {| doc_keys := Some [jwk_k1]; doc_other := 0 |}].
Definition net_k2 : list Outcome := [OJson {| doc_keys := Some [jwk_k2]; doc_other := 0 |}].

(* ------------------------------------------------------------------ *)
(** ** Readings of the specification *)

(** C4 as stated: a well-formed token whose [kid] matches no key of a
    fetched key set is rejected. *)
Definition claim_C4 : Prop :=
  forall lib cfg now tok h d rest,
    tok <> DEMO_TOKEN -> lib_header lib tok = Some h -> doc_truthy d = true ->
    Forall (fun j => kid_eq (jwk_kid j) (hd_kid h) = false) (jwks_keys d) ->
    exists status detail,
      fst (verify_run lib cfg now tok (OJson d :: rest)) = Rejected status detail.

(** C5 as stated: with every discovery request failing, the call fails
    with the 500 of the key service. *)
Definition claim_C5 : Prop :=
  forall lib cfg now tok h responses,
    tok <> DEMO_TOKEN -> lib_header lib tok = Some h ->
    Forall (fun o => is_json o = false) responses ->
    fst (verify_run lib cfg now tok responses) =
    Rejected 500 "Authentication service unavailable".

(** The claim names whose fallback chain picks the display name. *)
Definition display_keys : list string :=
  ["name"; "preferred_username"; "unique_name"; "email"; "upn"].

Definition email_keys : list string := ["email"; "preferred_username"; "upn"].

(** "The first present value among [keys]". *)
Definition first_present (keys : list string) (c : Claims) : option Value :=
  match find (fun k => existsb (fun kv => String.eqb (fst kv) k) c) keys with
  | Some k => Some (get c k)
  | None => None
  end.

(** C7 as stated, for one claims mapping [c]: the display name is the
    first present value of [display_keys], otherwise a fixed prefix and
    the first 8 characters of [sub]; the email is the first present value
    of [email_keys], otherwise the empty string. *)
Definition claim_C7_on (now : Z) (c : Claims) : Prop :=
  forall pk w ui w',
    finalize now c pk w = (inr ui, w') ->
    (match first_present display_keys c with
     | Some v => ui_user ui = v
     | None => exists pfx s, get c "sub" = VStr s /\
                             ui_user ui = VStr (pfx ++ substring 0 8 s)
     end) /\
    ui_email ui = match first_present email_keys c with
                  | Some v => v
                  | None => VStr ""
                  end.

Definition claim_C7 : Prop := forall now c, claim_C7_on now c.

(** The fields as the code resolves them: the first truthy value of
    the chain, and for the display name otherwise ["user_"] and the first
    8 characters of a truthy string [sub], or ["user_"] and the printed
    list of the first 8 elements of a non-empty array [sub], or
    ["user_unknown"] for a falsy or absent [sub]; any other truthy [sub]
    has no display name (the slice raises). *)
Definition first_truthy (keys : list string) (c : Claims) : option Value :=
  match find (fun k => truthy (get c k)) keys with
  | Some k => Some (get c k)
  | None => None
  end.

Definition amended_display (c : Claims) : option Value :=
  match first_truthy display_keys c with
  | Some v => Some v
  | None =>
      let sub := get c "sub" in
      if truthy sub then
        match sub with
        | VStr s => Some (VStr ("user_" ++ substring 0 8 s)%string)
        | VList l => Some (VStr ("user_" ++ py_repr (VList (firstn 8 l)))%string)
        | _ => None
        end
      else Some (VStr "user_unknown")
  end.

Definition amended_email (c : Claims) : Value :=
  match first_truthy email_keys c with
  | Some v => v
  | None => VStr ""
  end.

(** The URLs requested, in order. *)
Definition requests_of (l : list Event) : list string :=
  flat_map (fun e => match e with EvRequest u => [u] | _ => [] end) l.

(** C8 as stated, for a fetch [fetch] and its endpoint list: when every
    request fails, each endpoint is requested [retries] times, endpoint
    after endpoint, and the fetch then fails. *)
Definition claim_C8 {A} (fetch : M A) (eps : list string) (retries : nat) : Prop :=
  forall responses,
    Forall (fun o => is_json o = false) responses ->
    requests_of (log (snd (fetch {| net := responses; log := [] |}))) =
    flat_map (fun e => repeat e retries) eps /\
    exists e, fst (fetch {| net := responses; log := [] |}) = inl e.

(* ------------------------------------------------------------------ *)
(** ** Vocabulary of the proofs *)

Local Open Scope list_scope.

(** [m] only appends events satisfying [P] to the log. *)
Definition only (P : Event -> Prop) {A} (m : M A) : Prop :=
  forall w, exists new, log (snd (m w)) = log w ++ new /\ Forall P new.

(** [m] leaves the world untouched. *)
Definition silent {A} (m : M A) : Prop := forall w, snd (m w) = w.

Definition no_verify (e : Event) : Prop := forall i b, e <> EvVerify i b.

Definition failed_attempts (i n : nat) : list Event :=
  map (fun j => EvVerify j false) (seq i n).

(** The first [OJson] answer and its position. *)
Fixpoint first_json (k : nat) (os : list Outcome) : option (nat * JwksDoc) :=
  match os with
  | [] => None
  | OJson d :: _ => Some (k, d)
  | _ :: rest => first_json (S k) rest
  end.

(** The answers to three requests: the script, then connection errors. *)
Definition answers3 (os : list Outcome) : list Outcome :=
  firstn 3 (os ++ [OConnErr; OConnErr; OConnErr]).

(** [k + 1] requests of [url] with sleeps of [2 ^ i] seconds between the
    [i]-th failed attempt and the next. *)
Definition backoff_log (url : string) (k : nat) : list Event :=
  EvRequest url :: flat_map (fun i => [EvSleep (2 ^ Z.of_nat i); EvRequest url]) (seq 0 k).

(** The three calls of [get_public_keys] when no request succeeds. *)
Definition all_fail (os : list Outcome) : Prop := Forall (fun o => is_json o = false) os.

(** [m] raises nothing but non-HTTP exceptions. *)
Definition raises_other {A} (m : M A) : Prop :=
  forall w e w', m w = (inl e, w') -> exists s, e = OtherExc s.

Definition label_of (pk : PkState) : string :=
  match pk with PkBound (Some _) => "full" | _ => "unverified" end.

Definition never_raises {A} (m : M A) : Prop := forall w e w', m w <> (inl e, w').

(** Events logged before any decode of the token. *)
Definition pre_decode (e : Event) : Prop :=
  e = EvHeader \/ e = EvFromJwk \/ exists u, e = EvRequest u.

(** [m] issues at most [n] discovery requests. *)
Definition reqs_le (n : nat) {A} (m : M A) : Prop :=
  forall w, exists new, log (snd (m w)) = log w ++ new /\ (length (requests_of new) <= n)%nat.

(** Every request [m] logs goes to [u]. *)
Definition requests_to (u : string) (e : Event) : Prop :=
  forall v, e = EvRequest v -> v = u.

(** The answers to the two requests of the earlier fetch. *)
Definition answers2 (os : list Outcome) : list Outcome :=
  firstn 2 (os ++ [OConnErr; OConnErr]).

(** The earlier display name: the first truthy of [name],
    [preferred_username], [email]; otherwise from [sub] (a string's first
    8 characters, or the printed list of an array's first 8 elements),
    [None] when the slice raises. *)
Definition display02 (c : Claims) : option Value :=
  match first_truthy ["name"; "preferred_username"; "email"] c with
  | Some v => Some v
  | None =>
      match lookup c "sub" with
      | None => Some (VStr "user_unknown")
      | Some (VStr s) => Some (VStr ("user_" ++ substring 0 8 s)%string)
      | Some (VList l) => Some (VStr ("user_" ++ py_repr (VList (firstn 8 l)))%string)
      | Some _ => None
      end
  end.

(** Further tokens: ["tok.strexp"] with a string [exp], ["tok.nosub"]
    with only a [tid], ["tok.nullsub"] with a JSON [null] [sub]; none is
    accepted by any key. *)
Definition lib_more : Lib := {|
  lib_header := fun t =>
    if String.eqb t "tok.strexp" || String.eqb t "tok.nosub" || String.eqb t "tok.nullsub"
    then Some {| hd_kid := Some "k1"; hd_alg := Some "RS256" |} else None;
  lib_payload := fun t =>
    if String.eqb t "tok.strexp" then Some [("sub", VStr "abc"); ("exp", VStr "tomorrow")]
    else if String.eqb t "tok.nosub" then Some [("tid", VStr "t1")]
    else if String.eqb t "tok.nullsub" then Some [("sub", VNull)]
    else None;
  lib_accepts := fun _ _ _ => false;
  lib_from_jwk := fun j =>
    match jwk_kid j with VStr s => Some ("pem-" ++ s)%string | _ => None end
|}.

(** ["tok.alice"] as accepted without a key holding ["k1"]. *)
Definition alice_unverified : UserInfo :=
  {| ui_user := VStr "Alice"; ui_roles := ["user"];
     ui_email := VStr "alice@example.com";
     ui_details := Some {| d_sub := VStr "abcdefgh1234"; d_aud := VNull;
                           d_iss := VNull; d_tenant := VNull;
                           d_validated := "unverified" |} |}.

(* ------------------------------------------------------------------ *)
(** ** A run *)

Example verify_alice_strategy3 :
  verify_run lib_ex cfg_ex now_ex "tok.alice" net_k1 =
  (Accepted {| ui_user := VStr "Alice"; ui_roles := ["user"];
               ui_email := VStr "alice@example.com";
               ui_details := Some {| d_sub := VStr "abcdefgh1234"; d_aud := VNull;
                                     d_iss := VNull; d_tenant := VNull;
                                     d_validated := "full" |} |},
   {| net := [];
      log := [EvDecodeUnverified; EvHeader;
              EvRequest (JWKS_URL cfg_ex); EvFromJwk;
              EvVerify 1 false; EvVerify 2 false; EvVerify 3 true] |}).
Proof. reflexivity. Qed.

(* ------------------------------------------------------------------ *)
(** ** Effect lemmas *)

Section EffectLemmas.
Variable P : Event -> Prop.

Lemma only_ret {A} (a : A) : only P (ret a).
Proof. intros w. exists []. rewrite app_nil_r. auto. Qed.

Lemma only_throw {A} (e : Exc) : only P (@throw A e).
Proof. intros w. exists []. rewrite app_nil_r. auto. Qed.

Lemma only_emit e : P e -> only P (emit e).
Proof. intros He w. exists [e]. auto. Qed.

Lemma only_recv : only P recv.
Proof.
  intros [[|o os] l]; exists []; rewrite app_nil_r; auto.
Qed.

Lemma only_bind {A B} (m : M A) (f : A -> M B) :
  only P m -> (forall a, only P (f a)) -> only P (bind m f).
Proof.
  intros Hm Hf w. unfold bind.
  destruct (Hm w) as [n1 [E1 F1]].
  destruct (m w) as [[e|a] w1]; simpl in *.
  - exists n1; auto.
  - destruct (Hf a w1) as [n2 [E2 F2]].
    exists (n1 ++ n2). rewrite E2, E1, app_assoc. split; auto.
    apply Forall_app; auto.
Qed.

Lemma only_run {A} (m : M A) w r w' :
  only P m -> m w = (r, w') -> exists new, log w' = log w ++ new /\ Forall P new.
Proof. intros Hm E. destruct (Hm w) as [n H]. rewrite E in H. eauto. Qed.
End EffectLemmas.

Lemma silent_ret {A} (a : A) : silent (ret a).
Proof. intros w; reflexivity. Qed.

Lemma silent_throw {A} (e : Exc) : silent (@throw A e).
Proof. intros w; reflexivity. Qed.

Lemma silent_bind {A B} (m : M A) (f : A -> M B) :
  silent m -> (forall a, silent (f a)) -> silent (bind m f).
Proof.
  intros Hm Hf w. unfold bind. specialize (Hm w).
  destruct (m w) as [[e|a] w1]; simpl in *; subst; auto.
  apply Hf.
Qed.

Lemma silent_only P {A} (m : M A) : silent m -> only P m.
Proof. intros H w. exists []. rewrite H, app_nil_r. auto. Qed.

Create HintDb effects.
#[export] Hint Resolve only_ret only_throw only_recv only_bind : effects.
#[export] Hint Resolve silent_ret silent_throw silent_bind silent_only : effects.

Lemma fromtimestamp_silent v : silent (fromtimestamp v).
Proof.
  intros w. unfold fromtimestamp.
  destruct v as [s|z|b| |l|kvs]; try reflexivity.
  destruct (_ && _)%bool; reflexivity.
Qed.

Lemma synth_user_silent c : silent (synth_user c).
Proof.
  intros w. unfold synth_user.
  destruct (truthy (get c "sub")); [destruct (get c "sub")|]; reflexivity.
Qed.

Lemma por_silent a k : silent k -> silent (por a k).
Proof. unfold por. destruct (truthy a); auto with effects. Qed.

#[export] Hint Resolve fromtimestamp_silent synth_user_silent por_silent : effects.

Lemma build_user_info_silent c pk : silent (build_user_info c pk).
Proof.
  unfold build_user_info.
  apply silent_bind; [repeat apply por_silent; auto with effects|].
  intros user. apply silent_bind; [|auto with effects].
  destruct pk as [|[k|]]; auto with effects.
Qed.

#[export] Hint Resolve build_user_info_silent : effects.

Lemma finalize_silent now c pk : silent (finalize now c pk).
Proof.
  unfold finalize. destruct (claims_truthy c); auto with effects.
  apply silent_bind; auto with effects.
  destruct (truthy (get c "exp")); auto with effects.
  apply silent_bind; auto with effects.
  intros z. destruct (_ <? _)%Z; auto with effects.
Qed.

#[export] Hint Resolve finalize_silent : effects.

Ltac emit_nv := apply only_emit; intros ? ? ?; discriminate.

Lemma gpk_loop_nv url mr atts : only no_verify (gpk_loop url mr atts).
Proof.
  induction atts as [|a atts IH]; simpl; auto with effects.
  apply only_bind; [emit_nv|]. intros _.
  apply only_bind; auto with effects. intros o.
  destruct o; auto with effects;
  (apply only_bind; [destruct (Nat.ltb _ _); [emit_nv|auto with effects]|auto]).
Qed.

Lemma get_public_keys_nv cfg : only no_verify (get_public_keys cfg).
Proof. apply gpk_loop_nv. Qed.

Lemma fetch_loop_nv cfg atts j : only no_verify (fetch_loop cfg atts j).
Proof.
  revert j. induction atts as [|a atts IH]; intros j; simpl; auto with effects.
  apply only_bind; [apply get_public_keys_nv|]. intros j'.
  destruct (jwks_truthy j'); auto with effects.
Qed.

Lemma fetch_jwks_nv cfg : only no_verify (fetch_jwks cfg).
Proof. apply fetch_loop_nv. Qed.

Lemma select_key_nv lib kid keys : only no_verify (select_key lib kid keys).
Proof.
  induction keys as [|key keys IH]; simpl; auto with effects.
  destruct (kid_eq _ _); auto.
  apply only_bind; [emit_nv|]. intros _.
  destruct (lib_from_jwk lib key); auto with effects.
Qed.

Lemma unverified_decode_nv lib tok err : only no_verify (unverified_decode lib tok err).
Proof.
  unfold unverified_decode. apply only_bind; [emit_nv|]. intros _.
  destruct (lib_payload lib tok); auto with effects.
Qed.

Lemma parse_header_nv lib tok : only no_verify (parse_header lib tok).
Proof.
  unfold parse_header. apply only_bind; [emit_nv|]. intros _.
  destruct (lib_header lib tok); auto with effects.
Qed.

(* ------------------------------------------------------------------ *)
(** ** The strategy loop *)

Lemma run_strategies_trace dec sts i w :
  match run_strategies dec i sts w with
  | (r, w') =>
      net w' = net w /\
      ((r = inr None /\ Forall (fun st => dec st = None) sts /\
        log w' = log w ++ failed_attempts i (length sts))
       \/
       (exists pre st post c,
           sts = pre ++ st :: post /\ Forall (fun s => dec s = None) pre /\
           dec st = Some c /\ r = inr (Some c) /\
           log w' = log w ++ failed_attempts i (length pre)
                          ++ [EvVerify (i + length pre) true]))
  end.
Proof.
  revert i w. induction sts as [|st sts IH]; intros i w; simpl.
  - split; auto. left. rewrite app_nil_r. auto.
  - unfold bind, emit. destruct (dec st) as [c|] eqn:Hd; simpl.
    + split; auto. right. exists [], st, sts, c.
      simpl. rewrite Nat.add_0_r. repeat split; auto.
    + specialize (IH (S i) {| net := net w; log := log w ++ [EvVerify i false] |}).
      destruct (run_strategies dec (S i) sts _) as [r w'].
      destruct IH as [Hn [(Hr & Hall & Hl) | (pre & st' & post & c & Hs & Hpre & Hst & Hr & Hl)]];
        simpl in *; split; auto.
      * left. repeat split; auto. rewrite Hl, <- app_assoc. reflexivity.
      * right. exists (st :: pre), st', post, c. subst sts.
        repeat split; auto.
        rewrite Hl, <- app_assoc. simpl.
        replace (i + S (length pre))%nat with (S i + length pre)%nat by lia.
        reflexivity.
Qed.

(* ------------------------------------------------------------------ *)
(** ** The key fetch *)

Lemma get_public_keys_eq cfg w :
  get_public_keys cfg w =
  match first_json 0 (answers3 (net w)) with
  | Some (k, d) => (inr (Some d), {| net := skipn (S k) (net w);
                                      log := log w ++ backoff_log (JWKS_URL cfg) k |})
  | None => (inr None, {| net := skipn 3 (net w);
                          log := log w ++ backoff_log (JWKS_URL cfg) 2 |})
  end.
Proof.
  destruct w as [os l].
  destruct os as [|o1 [|o2 [|o3 os]]];
    repeat match goal with o : Outcome |- _ => destruct o end;
    cbn; repeat rewrite <- app_assoc; reflexivity.
Qed.

Lemma first_json_all_fail k os : all_fail os -> first_json k (answers3 os) = None.
Proof.
  intros H. unfold answers3.
  destruct H as [|o1 os H1 H]; [reflexivity|].
  destruct H as [|o2 os H2 H]; [destruct o1; try discriminate; reflexivity|].
  destruct H as [|o3 os H3 H];
    destruct o1; try discriminate; destruct o2; try discriminate;
    try (destruct o3; try discriminate); reflexivity.
Qed.

Lemma all_fail_skipn n os : all_fail os -> all_fail (skipn n os).
Proof.
  revert os. induction n as [|n IH]; intros os H; [exact H|].
  destruct H; simpl; [constructor|auto].
Qed.

Lemma fetch_loop_all_fail cfg atts j w :
  all_fail (net w) ->
  exists w', fetch_loop cfg atts j w =
             (inr (match atts with [] => j | _ => None end), w') /\
             all_fail (net w') /\
             log w' = log w ++ concat (repeat (backoff_log (JWKS_URL cfg) 2) (length atts)).
Proof.
  revert j w. induction atts as [|a atts IH]; intros j w H.
  - exists w. simpl. rewrite app_nil_r. auto.
  - simpl fetch_loop. unfold bind.
    rewrite get_public_keys_eq, first_json_all_fail by exact H.
    simpl jwks_truthy. cbv iota beta.
    destruct (IH None {| net := skipn 3 (net w);
                         log := log w ++ backoff_log (JWKS_URL cfg) 2 |})
      as (w' & E & Hf & Hl); [apply all_fail_skipn; exact H|].
    replace (match atts with [] => None | _ => None end) with (@None JwksDoc) in E
      by (destruct atts; reflexivity).
    exists w'. cbn [jwks_truthy]. rewrite E. split; [reflexivity|]. split; auto.
    rewrite Hl. simpl. rewrite <- app_assoc. reflexivity.
Qed.

Lemma fetch_jwks_all_fail cfg w :
  all_fail (net w) ->
  exists w', fetch_jwks cfg w = (inr None, w') /\ all_fail (net w') /\
             log w' = log w ++ concat (repeat (backoff_log (JWKS_URL cfg) 2) 3).
Proof. intros H. apply (fetch_loop_all_fail cfg (seq 0 3) None w H). Qed.

(* ------------------------------------------------------------------ *)
(** ** Paths through [verify_token] *)

Lemma emit_eq e w : emit e w = (inr tt, {| net := net w; log := log w ++ [e] |}).
Proof. reflexivity. Qed.

Lemma parse_header_some lib tok h w :
  lib_header lib tok = Some h ->
  parse_header lib tok w = (inr h, {| net := net w; log := log w ++ [EvHeader] |}).
Proof. intros H. unfold parse_header, bind. rewrite emit_eq, H. reflexivity. Qed.

Lemma bind_inr {A B} (m : M A) (f : A -> M B) w a w' :
  m w = (inr a, w') -> bind m f w = f a w'.
Proof. intros E. unfold bind. rewrite E. reflexivity. Qed.

Lemma bind_inl {A B} (m : M A) (f : A -> M B) w e w' :
  m w = (inl e, w') -> bind m f w = (inl e, w').
Proof. intros E. unfold bind. rewrite E. reflexivity. Qed.

Lemma unverified_decode_eq lib tok err w :
  unverified_decode lib tok err w =
  (match lib_payload lib tok with Some c => inr c | None => inl err end,
   {| net := net w; log := log w ++ [EvDecodeUnverified] |}).
Proof.
  unfold unverified_decode, bind. rewrite emit_eq.
  destruct (lib_payload lib tok); reflexivity.
Qed.

(** [finalize] on the decoded payload, or the decode's error. *)
Lemma decode_then_finalize lib tok err now pk w :
  bind (unverified_decode lib tok err) (fun c => finalize now c pk) w =
  (match lib_payload lib tok with
   | Some c => fst (finalize now c pk {| net := net w; log := log w ++ [EvDecodeUnverified] |})
   | None => inl err
   end, {| net := net w; log := log w ++ [EvDecodeUnverified] |}).
Proof.
  unfold bind. rewrite unverified_decode_eq.
  destruct (lib_payload lib tok) as [c|]; [|reflexivity].
  pose proof (finalize_silent now c pk {| net := net w; log := log w ++ [EvDecodeUnverified] |}) as Hs.
  destruct (finalize now c pk _). simpl in *. subst. reflexivity.
Qed.

(** The JWKS-failure branch: no key set after the three calls. *)
Lemma verify_no_jwks lib cfg now tok h w :
  tok <> DEMO_TOKEN -> lib_header lib tok = Some h -> all_fail (net w) ->
  exists w',
    verify_token lib cfg now tok w =
    (to_vresult (match lib_payload lib tok with
                 | None => inl (HTTPExc 500 "Authentication service unavailable")
                 | Some c => fst (finalize now c PkUnbound w')
                 end), w') /\
    log w' = log w ++ [EvDecodeUnverified; EvHeader]
                   ++ concat (repeat (backoff_log (JWKS_URL cfg) 2) 3)
                   ++ [EvDecodeUnverified].
Proof.
  intros Hd Hh Hf.
  unfold verify_token, verify_body.
  destruct (String.eqb_spec tok DEMO_TOKEN) as [|_]; [contradiction|].
  rewrite (bind_inr _ _ _ _ _ (emit_eq _ _)).
  rewrite (bind_inr _ _ _ _ _ (parse_header_some _ _ _ _ Hh)).
  match goal with |- context [bind (fetch_jwks cfg) _ ?w2] =>
    destruct (fetch_jwks_all_fail cfg w2) as (w3 & E3 & _ & L3); [exact Hf|]
  end.
  rewrite (bind_inr _ _ _ _ _ E3).
  rewrite decode_then_finalize.
  eexists. split; [reflexivity|]. simpl. rewrite L3. simpl.
  repeat rewrite <- app_assoc. reflexivity.
Qed.

(* ------------------------------------------------------------------ *)
(** ** [finalize]: errors and labels *)

Lemma raises_other_ret {A} (a : A) : raises_other (ret a).
Proof. intros w e w' E. discriminate. Qed.

Lemma raises_other_throw {A} s : raises_other (@throw A (OtherExc s)).
Proof. intros w e w' E. injection E as <- _. eauto. Qed.

Lemma raises_other_bind {A B} (m : M A) (f : A -> M B) :
  raises_other m -> (forall a, raises_other (f a)) -> raises_other (bind m f).
Proof.
  intros Hm Hf w e w' E. unfold bind in E.
  destruct (m w) as [[e1|a] w1] eqn:E1.
  - injection E as <- _. eapply Hm. exact E1.
  - eapply Hf. exact E.
Qed.

Lemma raises_other_por a k : raises_other k -> raises_other (por a k).
Proof. unfold por. destruct (truthy a); auto using raises_other_ret. Qed.

Lemma raises_other_synth_user c : raises_other (synth_user c).
Proof.
  unfold synth_user. destruct (truthy (get c "sub")); [|apply raises_other_ret].
  destruct (get c "sub"); auto using raises_other_ret, raises_other_throw.
Qed.

Lemma raises_other_fromtimestamp v : raises_other (fromtimestamp v).
Proof.
  unfold fromtimestamp.
  destruct v; auto using raises_other_ret, raises_other_throw.
  destruct (_ && _)%bool; auto using raises_other_ret, raises_other_throw.
Qed.

Lemma raises_other_build_user_info c pk : raises_other (build_user_info c pk).
Proof.
  unfold build_user_info.
  apply raises_other_bind;
    [repeat apply raises_other_por; apply raises_other_synth_user|intros user].
  apply raises_other_bind; [|intros; apply raises_other_ret].
  destruct pk as [|[k|]]; auto using raises_other_ret, raises_other_throw.
Qed.

Lemma build_user_info_ok c pk w ui w' :
  build_user_info c pk w = (inr ui, w') ->
  pk <> PkUnbound /\
  exists d, ui_details ui = Some d /\ d_validated d = label_of pk.
Proof.
  unfold build_user_info, bind.
  destruct (por _ _ w) as [[e|user] w1]; [discriminate|].
  destruct pk as [|[k|]]; simpl; intros E; try discriminate;
    injection E as <- _; split; try discriminate; eexists; split; reflexivity.
Qed.

Lemma build_user_info_unbound c w : exists s, fst (build_user_info c PkUnbound w) = inl (OtherExc s).
Proof.
  destruct (build_user_info c PkUnbound w) as [[e|ui] w'] eqn:E.
  - destruct (raises_other_build_user_info _ _ _ _ _ E) as [s ->]. simpl. eauto.
  - destruct (build_user_info_ok _ _ _ _ _ E) as [H _]. contradiction.
Qed.

Lemma finalize_err now c pk w e w' :
  finalize now c pk w = (inl e, w') ->
  e = HTTPExc 401 "Invalid token" \/ e = HTTPExc 401 TOKEN_EXPIRED_MSG \/
  exists s, e = OtherExc s.
Proof.
  unfold finalize. destruct (claims_truthy c).
  2:{ intros E. injection E as <- _. auto. }
  unfold bind at 1.
  destruct (truthy (get c "exp")).
  - unfold bind at 1. destruct (fromtimestamp _ w) as [[e1|z] w1] eqn:E1.
    + intros E. injection E as <- _.
      destruct (raises_other_fromtimestamp _ _ _ _ E1). eauto.
    + destruct (Z.ltb _ now).
      * intros E. injection E as <- _. auto.
      * intros E. right; right. eapply raises_other_build_user_info. exact E.
  - intros E. right; right. eapply raises_other_build_user_info. exact E.
Qed.

Lemma finalize_ok now c pk w ui w' :
  finalize now c pk w = (inr ui, w') ->
  pk <> PkUnbound /\ exists d, ui_details ui = Some d /\ d_validated d = label_of pk.
Proof.
  unfold finalize. destruct (claims_truthy c); [|discriminate].
  unfold bind at 1.
  destruct (truthy (get c "exp")).
  - unfold bind at 1. destruct (fromtimestamp _ w) as [[e1|z] w1]; [discriminate|].
    destruct (Z.ltb _ now); [discriminate|]. apply build_user_info_ok.
  - apply build_user_info_ok.
Qed.

(** With [public_key] never assigned, [finalize] ends in a 401. *)
Lemma finalize_unbound_401 now c w :
  exists d, to_vresult (fst (finalize now c PkUnbound w)) = Rejected 401 d /\
            In d ["Invalid token"; TOKEN_EXPIRED_MSG; "Invalid authentication credentials"].
Proof.
  destruct (finalize now c PkUnbound w) as [[e|ui] w'] eqn:E.
  - destruct (finalize_err _ _ _ _ _ _ E) as [-> | [-> | [s ->]]]; simpl; eauto 6.
  - destruct (finalize_ok _ _ _ _ _ _ E) as [H _]. contradiction.
Qed.

(* ------------------------------------------------------------------ *)
(** ** Loops that never raise *)

Lemma never_raises_ret {A} (a : A) : never_raises (ret a).
Proof. intros w e w' E. discriminate. Qed.

Lemma never_raises_emit e : never_raises (emit e).
Proof. intros w e' w' E. discriminate. Qed.

Lemma never_raises_recv : never_raises recv.
Proof. intros [[|o os] l] e w' E; discriminate. Qed.

Lemma never_raises_bind {A B} (m : M A) (f : A -> M B) :
  never_raises m -> (forall a, never_raises (f a)) -> never_raises (bind m f).
Proof.
  intros Hm Hf w e w' E. unfold bind in E.
  destruct (m w) as [[e1|a] w1] eqn:E1.
  - eapply Hm. exact E1.
  - eapply Hf. exact E.
Qed.

#[export] Hint Resolve never_raises_ret never_raises_emit never_raises_recv
  never_raises_bind : effects.

Lemma gpk_loop_never_raises url mr atts : never_raises (gpk_loop url mr atts).
Proof.
  induction atts as [|a atts IH]; simpl; auto with effects.
  apply never_raises_bind; auto with effects. intros _.
  apply never_raises_bind; auto with effects. intros o.
  destruct o; auto with effects;
    (apply never_raises_bind; [destruct (Nat.ltb _ _)|]; auto with effects).
Qed.

Lemma fetch_loop_never_raises cfg atts j : never_raises (fetch_loop cfg atts j).
Proof.
  revert j. induction atts as [|a atts IH]; intros j; simpl; auto with effects.
  apply never_raises_bind; [apply gpk_loop_never_raises|]. intros j'.
  destruct (jwks_truthy j'); auto with effects.
Qed.

Lemma select_key_never_raises lib kid keys : never_raises (select_key lib kid keys).
Proof.
  induction keys as [|key keys IH]; simpl; auto with effects.
  destruct (kid_eq _ _); auto.
  apply never_raises_bind; auto with effects. intros _.
  destruct (lib_from_jwk lib key); auto with effects.
Qed.

Lemma run_strategies_never_raises dec i sts : never_raises (run_strategies dec i sts).
Proof.
  revert i. induction sts as [|st sts IH]; intros i; simpl; auto with effects.
  destruct (dec st); auto with effects.
Qed.

(** What [run_strategies] returns was decoded by one of the strategies. *)
Lemma run_strategies_result lib tok k sts i w c w' :
  run_strategies (jwt_decode_verified lib tok k) i sts w = (inr (Some c), w') ->
  lib_payload lib tok = Some c.
Proof.
  intros E. pose proof (run_strategies_trace (jwt_decode_verified lib tok k) sts i w) as T.
  rewrite E in T.
  destruct T as [_ [(Hr & _) | (pre & st & post & c' & _ & _ & Hst & Hr & _)]];
    [discriminate|].
  injection Hr as <-. unfold jwt_decode_verified in Hst.
  destruct (lib_accepts lib tok k st); [exact Hst|discriminate].
Qed.

Lemma run_strategies_appends dec i sts : only (fun _ => True) (run_strategies dec i sts).
Proof.
  revert i. induction sts as [|st sts IH]; intros i; simpl; auto with effects.
  destruct (dec st); apply only_bind; auto with effects; apply only_emit; exact I.
Qed.

Lemma parse_header_none lib tok w :
  lib_header lib tok = None ->
  parse_header lib tok w =
  (inl (HTTPExc 401 "Invalid token format"), {| net := net w; log := log w ++ [EvHeader] |}).
Proof. intros H. unfold parse_header, bind. rewrite emit_eq, H. reflexivity. Qed.

Ltac nv_events :=
  repeat first
    [ assumption
    | apply Forall_app; split
    | apply Forall_cons; [intros ? ? ?; discriminate|]
    | apply Forall_nil ].

(** Every non-demo call ends in one of three ways: a malformed header;
    a failed unverified decode; or [finalize] on the token's payload with
    some state of [public_key], where a label of ["unverified"] means no
    signature check was attempted. *)
Lemma verify_body_paths lib cfg now tok w r w' :
  tok <> DEMO_TOKEN ->
  verify_body lib cfg now tok w = (r, w') ->
  exists new, log w' = log w ++ new /\
  ( (r = inl (HTTPExc 401 "Invalid token format") /\ lib_header lib tok = None)
  \/ (lib_payload lib tok = None /\
      In r [@inl Exc UserInfo (HTTPExc 500 "Authentication service unavailable");
            inl (HTTPExc 401 "Invalid token signature");
            inl (HTTPExc 401 "Token validation failed")])
  \/ (exists c pk, lib_payload lib tok = Some c /\ r = fst (finalize now c pk w') /\
        (label_of pk = "unverified" -> Forall no_verify new))).
Proof.
  intros Hd E.
  unfold verify_body in E.
  destruct (String.eqb_spec tok DEMO_TOKEN) as [|_]; [contradiction|].
  rewrite (bind_inr _ _ _ _ _ (emit_eq _ _)) in E.
  destruct (lib_header lib tok) as [h|] eqn:Hh.
  2:{ rewrite (bind_inl _ _ _ _ _ (parse_header_none _ _ _ Hh)) in E.
      injection E as <- <-. eexists. split; [simpl; rewrite <- app_assoc; reflexivity|].
      left. split; reflexivity. }
  rewrite (bind_inr _ _ _ _ _ (parse_header_some _ _ _ _ Hh)) in E.
  rewrite <- Hh.
  match type of E with context [bind (fetch_jwks cfg) _ ?w2] => set (w2' := w2) in E end.
  destruct (fetch_jwks cfg w2') as [[e|j] w3] eqn:E3.
  { exfalso. eapply fetch_loop_never_raises. exact E3. }
  destruct (only_run _ _ _ _ _ (fetch_jwks_nv cfg) E3) as (n3 & L3 & F3).
  rewrite (bind_inr _ _ _ _ _ E3) in E.
  assert (Hlog3 : log w3 = log w ++ [EvDecodeUnverified; EvHeader] ++ n3).
  { rewrite L3. subst w2'. simpl. repeat rewrite <- app_assoc. reflexivity. }
  clear L3 E3.
  (* the unverified fallbacks, each followed by [finalize] *)
  assert (Fallback : forall err pk,
            In (@inl Exc UserInfo err)
               [inl (HTTPExc 500 "Authentication service unavailable");
                inl (HTTPExc 401 "Invalid token signature");
                inl (HTTPExc 401 "Token validation failed")] ->
            forall wa na,
            log wa = log w ++ [EvDecodeUnverified; EvHeader] ++ na ->
            (label_of pk = "unverified" -> Forall no_verify na) ->
            bind (unverified_decode lib tok err) (fun c => finalize now c pk) wa = (r, w') ->
            exists new, log w' = log w ++ new /\
            ( (r = inl (HTTPExc 401 "Invalid token format") /\ lib_header lib tok = None)
            \/ (lib_payload lib tok = None /\
                In r [@inl Exc UserInfo (HTTPExc 500 "Authentication service unavailable");
                      inl (HTTPExc 401 "Invalid token signature");
                      inl (HTTPExc 401 "Token validation failed")])
            \/ (exists c pk, lib_payload lib tok = Some c /\ r = fst (finalize now c pk w') /\
                  (label_of pk = "unverified" -> Forall no_verify new)))).
  { intros err pk Hin wa na La Fa Ea.
    rewrite decode_then_finalize in Ea. injection Ea as <- <-.
    exists ([EvDecodeUnverified; EvHeader] ++ na ++ [EvDecodeUnverified]).
    split; [simpl; rewrite La; simpl; repeat rewrite <- app_assoc; reflexivity|].
    destruct (lib_payload lib tok) as [c|] eqn:Hp.
    - right; right. exists c, pk. split; [reflexivity|]. split; [reflexivity|].
      intros Hu. specialize (Fa Hu). nv_events.
    - right; left. auto. }
  destruct j as [d|].
  - destruct (doc_truthy d).
    + destruct (select_key lib (hd_kid h) (jwks_keys d) w3) as [[e|pk] w4] eqn:E4.
      { exfalso. eapply select_key_never_raises. exact E4. }
      destruct (only_run _ _ _ _ _ (select_key_nv lib (hd_kid h) (jwks_keys d)) E4)
        as (n4 & L4 & F4).
      rewrite (bind_inr _ _ _ _ _ E4) in E.
      destruct pk as [k|].
      * destruct (run_strategies (jwt_decode_verified lib tok k) 1
                    (validation_strategies cfg (header_alg h)) w4) as [[e|r0] w5] eqn:E5.
        { exfalso. eapply run_strategies_never_raises. exact E5. }
        destruct (only_run _ _ _ _ _ (run_strategies_appends _ _ _) E5) as (n5 & L5 & _).
        rewrite (bind_inr _ _ _ _ _ E5) in E.
        assert (L45 : log w5 = log w ++ [EvDecodeUnverified; EvHeader] ++ (n3 ++ n4 ++ n5)).
        { rewrite L5, L4, Hlog3. repeat rewrite <- app_assoc. reflexivity. }
        destruct r0 as [c|] eqn:Hr0;
          [destruct (claims_truthy c) eqn:Hc|].
        -- rewrite (bind_inr _ _ _ _ _ (eq_refl : ret c w5 = (inr c, w5))) in E.
           pose proof (finalize_silent now c (PkBound (Some k)) w5) as Hs.
           rewrite E in Hs. simpl in Hs. subst w'.
           exists ([EvDecodeUnverified; EvHeader] ++ n3 ++ n4 ++ n5). split; [exact L45|].
           right; right. exists c, (PkBound (Some k)).
           split; [eapply run_strategies_result; exact E5|].
           split; [rewrite E; reflexivity|]. discriminate.
        -- eapply (Fallback (HTTPExc 401 "Token validation failed") (PkBound (Some k))); [simpl; auto| exact L45 | discriminate | exact E].
        -- eapply (Fallback (HTTPExc 401 "Token validation failed") (PkBound (Some k))); [simpl; auto| exact L45 | discriminate | exact E].
      * apply (Fallback (HTTPExc 401 "Invalid token signature") (PkBound None) ltac:(simpl; auto) w4 (n3 ++ n4)); [| |exact E].
        { rewrite L4, Hlog3. repeat rewrite <- app_assoc. reflexivity. }
        { intros _. nv_events. }
    + eapply (Fallback (HTTPExc 500 "Authentication service unavailable") PkUnbound); [simpl; auto | exact Hlog3 | intros _; exact F3 | exact E].
  - eapply (Fallback (HTTPExc 500 "Authentication service unavailable") PkUnbound); [simpl; auto | exact Hlog3 | intros _; exact F3 | exact E].
Qed.

(** An unreadable header is answered 401 "Invalid token format". *)
Lemma verify_body_no_header lib cfg now tok w :
  tok <> DEMO_TOKEN -> lib_header lib tok = None ->
  fst (verify_body lib cfg now tok w) = inl (HTTPExc 401 "Invalid token format").
Proof.
  intros Hd Hh. unfold verify_body.
  destruct (String.eqb_spec tok DEMO_TOKEN) as [|_]; [contradiction|].
  rewrite (bind_inr _ _ _ _ _ (emit_eq _ _)).
  rewrite (bind_inl _ _ _ _ _ (parse_header_none _ _ _ Hh)). reflexivity.
Qed.

(* ------------------------------------------------------------------ *)
(** ** Helpers for the claims *)

(** An [exp] that [fromtimestamp] refuses makes [finalize] raise a
    non-HTTP exception. *)
Lemma finalize_bad_exp now c pk w :
  bad_exp (get c "exp") = true ->
  exists s, finalize now c pk w = (inl (OtherExc s), w).
Proof.
  intros H. destruct c as [|p c']; [discriminate H|].
  unfold finalize, bad_exp in *. cbv beta iota zeta delta [claims_truthy].
  destruct (get (p :: c') "exp") as [s|z|b| |l|kvs];
    apply andb_prop in H; destruct H as [Ht H]; try discriminate H;
    rewrite Ht; unfold bind, fromtimestamp, throw; cbv beta iota zeta;
    try (rewrite negb_true_iff in H; rewrite H); eauto.
Qed.

(** The key fetch's result and the remaining responses depend only on
    the responses, not on what was logged before. *)
Definition net_det {A} (m : M A) : Prop :=
  forall w1 w2, net w1 = net w2 ->
  fst (m w1) = fst (m w2) /\ net (snd (m w1)) = net (snd (m w2)).

Lemma net_det_ret {A} (a : A) : net_det (ret a).
Proof. intros w1 w2 H. simpl. auto. Qed.

Lemma net_det_emit e : net_det (emit e).
Proof. intros w1 w2 H. simpl. auto. Qed.

Lemma net_det_recv : net_det recv.
Proof.
  intros w1 w2 H. unfold recv. rewrite H.
  destruct (net w2) eqn:E2; simpl; split; congruence.
Qed.

Lemma net_det_bind {A B} (m : M A) (f : A -> M B) :
  net_det m -> (forall a, net_det (f a)) -> net_det (bind m f).
Proof.
  intros Hm Hf w1 w2 H. unfold bind. specialize (Hm w1 w2 H).
  destruct (m w1) as [[e1|a1] w1'], (m w2) as [[e2|a2] w2']; simpl in *;
    destruct Hm as [Hr Hn]; try discriminate Hr.
  - injection Hr as ->. auto.
  - injection Hr as ->. apply Hf. exact Hn.
Qed.

#[export] Hint Resolve net_det_ret net_det_emit net_det_recv net_det_bind : effects.

Lemma fetch_jwks_net_det cfg : net_det (fetch_jwks cfg).
Proof.
  unfold fetch_jwks. generalize (@None JwksDoc).
  induction (seq 0 3) as [|a atts IH]; intros j; simpl; auto with effects.
  apply net_det_bind.
  - unfold get_public_keys.
    induction (seq 0 3) as [|b bs IHb]; simpl; auto with effects.
    apply net_det_bind; auto with effects. intros _.
    apply net_det_bind; auto with effects. intros o.
    destruct o; auto with effects;
      (apply net_det_bind; [destruct (Nat.ltb _ _)|]; auto with effects).
  - intros j'. destruct (jwks_truthy j'); auto with effects.
Qed.

(** The earlier key fetch, by the position of the first JSON answer. *)
Lemma m02_fetch_eq cfg w :
  M02.get_public_keys cfg w =
  match first_json 0 (answers2 (net w)) with
  | Some (k, d) => (inr (M02.BDoc d),
                    {| net := skipn (S k) (net w);
                       log := log w ++ map EvRequest (firstn (S k) (M02.endpoints cfg)) |})
  | None => (inl (OtherExc "Failed to retrieve JWKS from all endpoints"),
             {| net := skipn 2 (net w); log := log w ++ map EvRequest (M02.endpoints cfg) |})
  end.
Proof.
  destruct w as [os l]. unfold answers2, M02.get_public_keys, M02.endpoints.
  destruct os as [|o1 [|o2 os]];
    repeat match goal with o : Outcome |- _ => destruct o end;
    cbn [M02.try_endpoints bind emit recv ret throw net log map skipn firstn first_json app];
    repeat rewrite <- app_assoc; reflexivity.
Qed.

(** No key both matches the header's [kid] and converts. *)
Lemma select_key_none lib kid keys w :
  Forall (fun j => kid_eq (jwk_kid j) kid = false \/ lib_from_jwk lib j = None) keys ->
  exists w', select_key lib kid keys w = (inr None, w') /\ net w' = net w.
Proof.
  intros H. revert w. induction H as [|j keys Hj H IH]; intros w.
  - exists w. auto.
  - simpl. destruct (kid_eq (jwk_kid j) kid) eqn:Hk; [|apply IH].
    destruct Hj as [Hj|Hj]; [congruence|].
    rewrite (bind_inr _ _ _ _ _ (emit_eq _ _)), Hj.
    destruct (IH {| net := net w; log := log w ++ [EvFromJwk] |}) as (w' & E & N).
    exists w'. auto.
Qed.

Lemma get_absent c k : ~ In k (map fst c) -> get c k = VNull.
Proof.
  induction c as [|[k' v] c IH]; simpl; intros H; [reflexivity|].
  destruct (String.eqb_spec k k') as [->|_]; [tauto|]. auto.
Qed.

(** A non-zero [exp] in [datetime]'s range and in the past. *)
Lemma finalize_expired now c pk w z :
  get c "exp" = VNum z -> z <> 0%Z ->
  (-62135596800 <= z <= 253402300799)%Z -> (z * 1000000 < now)%Z ->
  finalize now c pk w = (inl (HTTPExc 401 TOKEN_EXPIRED_MSG), w).
Proof.
  intros Hg Hz Hr Hlt. unfold finalize.
  destruct c as [|p c]; [discriminate Hg|]. cbv beta iota delta [claims_truthy].
  rewrite Hg. unfold truthy. rewrite (proj2 (Z.eqb_neq z 0) Hz). simpl negb.
  unfold bind at 1 2, fromtimestamp.
  replace ((-62135596800 <=? z) && (z <=? 253402300799))%Z%bool with true
    by (symmetry; apply andb_true_intro; split; apply Z.leb_le; lia).
  unfold ret. rewrite (proj2 (Z.ltb_lt _ _) Hlt). reflexivity.
Qed.

(** A successful [finalize] is the identity of [build_user_info]. *)
Lemma finalize_inr_build now c pk w ui w' :
  finalize now c pk w = (inr ui, w') -> build_user_info c pk w = (inr ui, w').
Proof.
  unfold finalize. destruct (claims_truthy c); [|discriminate].
  unfold bind at 1. destruct (truthy (get c "exp")); [|auto].
  unfold bind at 1. destruct (fromtimestamp _ w) as [[e|z] w1] eqn:E1; [discriminate|].
  pose proof (fromtimestamp_silent (get c "exp") w) as Hs. rewrite E1 in Hs.
  simpl in Hs. subst w1. destruct (Z.ltb _ now); [discriminate|auto].
Qed.

Lemma build_user_info_fields c pk w ui w' :
  build_user_info c pk w = (inr ui, w') ->
  Some (ui_user ui) = amended_display c /\ ui_email ui = amended_email c.
Proof.
  unfold build_user_info, amended_display, amended_email, first_truthy,
    display_keys, email_keys, por, py_or, synth_user, bind.
  cbn [find].
  repeat match goal with
         | |- context [truthy (get c ?k)] => destruct (truthy (get c k)) eqn:?
         end;
  destruct (get c "sub"); destruct pk as [|[k|]]; simpl; intros H;
    try discriminate; injection H as <- _; simpl; auto.
Qed.

(* ------------------------------------------------------------------ *)
(** ** The claims *)

(** C1: a token whose header names a fetched key, but whose signature
    no strategy accepts with any key, is accepted from its unverified
    payload after all five strategies failed, and labelled ["full"]. *)
Theorem verify_forged_labelled_full :
  (forall k st, lib_accepts lib_ex "tok.carol" k st = false) /\
  verify_run lib_ex cfg_ex now_ex "tok.carol" net_k1 =
  (Accepted {| ui_user := VStr "carol@example.com"; ui_roles := ["user"];
               ui_email := VStr "carol@example.com";
               ui_details := Some {| d_sub := VStr "abcdefgh1234"; d_aud := VNull;
                                     d_iss := VNull; d_tenant := VNull;
                                     d_validated := "full" |} |},
   {| net := [];
      log := [EvDecodeUnverified; EvHeader; EvRequest (JWKS_URL cfg_ex); EvFromJwk;
              EvVerify 1 false; EvVerify 2 false; EvVerify 3 false;
              EvVerify 4 false; EvVerify 5 false; EvDecodeUnverified] |}).
Proof. split; [intros k st; reflexivity | vm_compute; reflexivity]. Qed.

(** C2: a token with [exp = 0] (1970, long past), whose signature every
    strategy rejects, is accepted: [if exp:] skips the expiry check for
    the falsy [0]. *)
Theorem verify_accepts_exp_zero :
  lib_payload lib_ex "tok.expired0" = Some exp0_claims /\
  get exp0_claims "exp" = VNum 0 /\ (0 * 1000000 < now_ex)%Z /\
  verify_run lib_ex cfg_ex now_ex "tok.expired0" net_k1 =
  (Accepted {| ui_user := VStr "Eve"; ui_roles := ["user"]; ui_email := VStr "";
               ui_details := Some {| d_sub := VStr "eve12345xyz"; d_aud := VNull;
                                     d_iss := VNull; d_tenant := VNull;
                                     d_validated := "full" |} |},
   {| net := [];
      log := [EvDecodeUnverified; EvHeader; EvRequest (JWKS_URL cfg_ex); EvFromJwk;
              EvVerify 1 false; EvVerify 2 false; EvVerify 3 false;
              EvVerify 4 false; EvVerify 5 false; EvDecodeUnverified] |}).
Proof. refine (conj eq_refl (conj eq_refl (conj _ _))); vm_compute; reflexivity. Qed.

(** C3: the strategies run in their listed order, one attempt each,
    each logged before the next starts: either all five fail, or the
    returned claims are those of the first strategy that passes, every
    earlier one having failed and no later one having been attempted. *)
Theorem strategies_first_success lib tok k cfg alg w :
  let sts := validation_strategies cfg alg in
  let dec := jwt_decode_verified lib tok k in
  match run_strategies dec 1 sts w with
  | (r, w') =>
      (r = inr None /\ Forall (fun st => dec st = None) sts /\
       log w' = log w ++ failed_attempts 1 5)
      \/
      (exists pre st post c,
          sts = pre ++ st :: post /\ Forall (fun s => dec s = None) pre /\
          dec st = Some c /\ r = inr (Some c) /\
          log w' = log w ++ failed_attempts 1 (length pre)
                         ++ [EvVerify (S (length pre)) true])
  end.
Proof.
  intros sts dec.
  pose proof (run_strategies_trace dec sts 1 w) as T.
  destruct (run_strategies dec 1 sts w) as [r w'].
  destruct T as [_ T]. exact T.
Qed.

(** C6: the demo token is accepted with the fixed identity, leaving the
    world untouched: no request, header parse, key lookup or signature
    check. *)
Theorem verify_demo_token lib cfg now w :
  verify_token lib cfg now DEMO_TOKEN w = (Accepted demo_user_info, w) /\
  ui_user demo_user_info = VStr "demo-user" /\
  ui_email demo_user_info = VStr "demo@example.com" /\
  ui_roles demo_user_info = ["user"].
Proof. repeat split. Qed.

(** C8: the earlier key fetch requests its endpoints in order, each at
    most once and without sleeping, whatever the responses; so when
    every request fails it has requested each endpoint exactly once, and
    the stated behaviour (each endpoint retried up to the limit before
    the next) fails for every retry limit other than 1. *)
Theorem m02_key_fetch_no_retry cfg :
  (forall w, exists k, (k <= 2)%nat /\
     log (snd (M02.get_public_keys cfg w)) =
     log w ++ map EvRequest (firstn k (M02.endpoints cfg))) /\
  (forall retries, retries <> 1%nat ->
     ~ claim_C8 (M02.get_public_keys cfg) (M02.endpoints cfg) retries).
Proof.
  split.
  - intros w. rewrite m02_fetch_eq.
    destruct (first_json 0 (answers2 (net w))) as [[k d]|] eqn:Ej; cbn [snd log].
    + exists (S k). split; [|reflexivity].
      destruct (net w) as [|o1 [|o2 os]]; unfold answers2 in Ej; cbn in Ej;
        repeat match type of Ej with context [match ?o with _ => _ end] =>
                 destruct o; cbn in Ej end;
        try discriminate Ej; injection Ej as <- _; lia.
    + exists 2%nat. split; reflexivity.
  - intros r Hr H. destruct (H [] (Forall_nil _)) as [Hq _].
    rewrite m02_fetch_eq in Hq. unfold M02.endpoints in Hq. cbn in Hq.
    apply (f_equal (@length string)) in Hq.
    rewrite !length_app, !repeat_length in Hq. cbn in Hq. lia.
Qed.

(** C4 as stated fails: the well-formed token ["tok.alice"], whose
    header names ["k1"], is accepted when the key set only holds
    ["k2"]. *)
Lemma unknown_kid_accepted : ~ claim_C4.
Proof.
  intros H.
  destruct (H lib_ex cfg_ex now_ex "tok.alice" {| hd_kid := Some "k1"; hd_alg := Some "RS256" |}
              {| doc_keys := Some [jwk_k2]; doc_other := 0 |} []
              ltac:(discriminate) eq_refl eq_refl
              ltac:(repeat constructor)) as (status & detail & Hr).
  vm_compute in Hr. discriminate Hr.
Qed.

(** C4: when the key set fetched (after any failed requests and their
    backoff) is truthy and none of its keys
    both matches the header's [kid] and converts, no strategy is
    attempted; the call fails with 401 "Invalid token signature" only if
    the payload cannot be decoded, and otherwise goes on to [finalize]
    with the unverified payload, any identity it returns being labelled
    ["unverified"]. *)
Theorem verify_unknown_kid lib cfg now tok h d w :
  tok <> DEMO_TOKEN -> lib_header lib tok = Some h ->
  fst (fetch_jwks cfg w) = inr (Some d) -> doc_truthy d = true ->
  Forall (fun j => kid_eq (jwk_kid j) (hd_kid h) = false \/ lib_from_jwk lib j = None)
         (jwks_keys d) ->
  exists w',
    verify_token lib cfg now tok w =
    (to_vresult (match lib_payload lib tok with
                 | None => inl (HTTPExc 401 "Invalid token signature")
                 | Some c => fst (finalize now c (PkBound None) w')
                 end), w') /\
    (exists new, log w' = log w ++ new /\ Forall no_verify new) /\
    (forall ui, fst (verify_token lib cfg now tok w) = Accepted ui ->
                exists dd, ui_details ui = Some dd /\ d_validated dd = "unverified").
Proof.
  intros Hd Hh Hn Ht Hk.
  assert (Main : exists w',
    verify_token lib cfg now tok w =
    (to_vresult (match lib_payload lib tok with
                 | None => inl (HTTPExc 401 "Invalid token signature")
                 | Some c => fst (finalize now c (PkBound None) w')
                 end), w') /\
    (exists new, log w' = log w ++ new /\ Forall no_verify new)).
  { unfold verify_token, verify_body.
    destruct (String.eqb_spec tok DEMO_TOKEN) as [|_]; [contradiction|].
    rewrite (bind_inr _ _ _ _ _ (emit_eq _ _)).
    rewrite (bind_inr _ _ _ _ _ (parse_header_some _ _ _ _ Hh)).
    match goal with |- context [bind (fetch_jwks cfg) _ ?w2] => set (w2' := w2) end.
    destruct (fetch_jwks cfg w2') as [[e|j] w3] eqn:E3.
    { exfalso. eapply fetch_loop_never_raises. exact E3. }
    assert (Hj : j = Some d).
    { destruct (fetch_jwks_net_det cfg w w2' eq_refl) as [Hf _].
      rewrite Hn, E3 in Hf. injection Hf as ->. reflexivity. }
    subst j.
    destruct (only_run _ _ _ _ _ (fetch_jwks_nv cfg) E3) as (n3 & L3 & F3).
    rewrite (bind_inr _ _ _ _ _ E3).
    cbv iota. rewrite Ht.
    match goal with |- context [bind (select_key lib (hd_kid h) (jwks_keys d)) _ ?w3] =>
      destruct (select_key_none lib (hd_kid h) (jwks_keys d) w3 Hk) as (w4 & E4 & _);
      destruct (only_run _ _ _ _ _ (select_key_nv lib (hd_kid h) (jwks_keys d)) E4)
        as (n4 & L4 & F4)
    end.
    rewrite (bind_inr _ _ _ _ _ E4). cbv iota beta.
    rewrite decode_then_finalize.
    eexists. split; [reflexivity|].
    exists ([EvDecodeUnverified; EvHeader] ++ n3 ++ n4 ++ [EvDecodeUnverified]).
    split.
    - simpl. rewrite L4, L3. subst w2'. simpl. repeat rewrite <- app_assoc. reflexivity.
    - nv_events. }
  destruct Main as (w' & E & L). exists w'. split; [exact E|]. split; [exact L|].
  intros ui. rewrite E. simpl.
  destruct (lib_payload lib tok) as [c|]; [|discriminate].
  destruct (finalize now c (PkBound None) w') as [[e|ui0] w''] eqn:Ef; simpl.
  - destruct e; discriminate.
  - intros Hu. injection Hu as <-.
    destruct (finalize_ok _ _ _ _ _ _ Ef) as [_ (dd & Hdd & Hl)]. eauto.
Qed.

Lemma verify_unknown_kid_witness :
  "tok.alice" <> DEMO_TOKEN /\
  lib_header lib_ex "tok.alice" = Some {| hd_kid := Some "k1"; hd_alg := Some "RS256" |} /\
  fst (fetch_jwks cfg_ex {| net := OTimeout :: net_k2; log := [] |}) =
    inr (Some {| doc_keys := Some [jwk_k2]; doc_other := 0 |}) /\
  (forall ui, fst (verify_token lib_ex cfg_ex now_ex "tok.alice"
                     {| net := OTimeout :: net_k2; log := [] |}) = Accepted ui ->
              exists dd, ui_details ui = Some dd /\ d_validated dd = "unverified").
Proof.
  split; [discriminate|]. split; [reflexivity|]. split; [reflexivity|].
  destruct (verify_unknown_kid lib_ex cfg_ex now_ex "tok.alice"
              {| hd_kid := Some "k1"; hd_alg := Some "RS256" |}
              {| doc_keys := Some [jwk_k2]; doc_other := 0 |}
              {| net := OTimeout :: net_k2; log := [] |}
              ltac:(discriminate) eq_refl eq_refl eq_refl
              ltac:(repeat constructor; left; reflexivity)) as (w' & _ & _ & H).
  exact H.
Defined.

(** C5 as stated fails: with no discovery request succeeding, the
    expired token ["tok.old"] is rejected as expired, not with the 500 of
    the key service. *)
Lemma key_service_down_not_500 : ~ claim_C5.
Proof.
  intros H.
  pose proof (H lib_ex cfg_ex now_ex "tok.old" {| hd_kid := Some "k1"; hd_alg := Some "RS256" |}
                [] ltac:(discriminate) eq_refl (Forall_nil _)) as Hr.
  vm_compute in Hr. discriminate Hr.
Qed.

(** C5: when every discovery request fails (three calls of
    [get_public_keys], nine requests), no signature check is attempted;
    the call fails with 500 "Authentication service unavailable" only
    when the payload cannot be decoded; otherwise it goes on with the
    unverified payload: it never fails with that 500, an empty payload
    is rejected with 401 "Invalid token", a non-zero [exp] in the past
    within [datetime]'s range (years 1 to 9999) with 401 "Token has
    expired", and an [exp] that [datetime] cannot convert with 401
    "Invalid authentication credentials". *)
Theorem verify_key_service_down lib cfg now tok h w :
  tok <> DEMO_TOKEN -> lib_header lib tok = Some h -> all_fail (net w) ->
  (exists new, log (snd (verify_token lib cfg now tok w)) = log w ++ new /\
               Forall no_verify new /\ length (requests_of new) = 9%nat) /\
  (lib_payload lib tok = None ->
   fst (verify_token lib cfg now tok w) = Rejected 500 "Authentication service unavailable") /\
  (forall c, lib_payload lib tok = Some c ->
   fst (verify_token lib cfg now tok w) <> Rejected 500 "Authentication service unavailable" /\
   (c = [] -> fst (verify_token lib cfg now tok w) = Rejected 401 "Invalid token") /\
   (forall z, get c "exp" = VNum z -> z <> 0%Z ->
      (-62135596800 <= z <= 253402300799)%Z -> (z * 1000000 < now)%Z ->
      fst (verify_token lib cfg now tok w) = Rejected 401 TOKEN_EXPIRED_MSG) /\
   (bad_exp (get c "exp") = true ->
      fst (verify_token lib cfg now tok w) = Rejected 401 "Invalid authentication credentials")).
Proof.
  intros Hd Hh Hf.
  destruct (verify_no_jwks lib cfg now tok h w Hd Hh Hf) as (w' & E & L).
  rewrite E. simpl fst. simpl snd. split.
  { eexists. split; [exact L|]. split.
    - simpl. nv_events.
    - reflexivity. }
  split.
  { intros Hp. rewrite Hp. reflexivity. }
  intros c Hp. rewrite Hp. split; [|split; [|split]].
  - destruct (finalize_unbound_401 now c w') as (d & Hr & _). rewrite Hr. discriminate.
  - intros ->. reflexivity.
  - intros z Hg Hz Hr Hlt. rewrite (finalize_expired now c PkUnbound w' z Hg Hz Hr Hlt).
    reflexivity.
  - intros Hb. destruct (finalize_bad_exp now c PkUnbound w' Hb) as [s ->]. reflexivity.
Qed.

Lemma verify_key_service_down_witness :
  "tok.old" <> DEMO_TOKEN /\
  lib_header lib_ex "tok.old" = Some {| hd_kid := Some "k1"; hd_alg := Some "RS256" |} /\
  all_fail [] /\
  fst (verify_run lib_ex cfg_ex now_ex "tok.old" []) = Rejected 401 TOKEN_EXPIRED_MSG /\
  fst (verify_run lib_more cfg_ex now_ex "tok.strexp" []) =
    Rejected 401 "Invalid authentication credentials".
Proof.
  split; [discriminate|]. split; [reflexivity|]. split; [constructor|]. split.
  - destruct (verify_key_service_down lib_ex cfg_ex now_ex "tok.old"
                {| hd_kid := Some "k1"; hd_alg := Some "RS256" |}
                {| net := []; log := [] |}
                ltac:(discriminate) eq_refl (Forall_nil _)) as (_ & _ & H).
    apply (proj1 (proj2 (proj2 (H old_claims eq_refl))) 1600000000%Z eq_refl);
      [discriminate | vm_compute; split; discriminate | vm_compute; reflexivity].
  - destruct (verify_key_service_down lib_more cfg_ex now_ex "tok.strexp"
                {| hd_kid := Some "k1"; hd_alg := Some "RS256" |}
                {| net := []; log := [] |}
                ltac:(discriminate) eq_refl (Forall_nil _)) as (_ & _ & H).
    exact (proj2 (proj2 (proj2 (H _ eq_refl))) eq_refl).
Defined.




(** The backend's key fetch requests its single endpoint
    [JWKS_URL] up to three times, sleeping 1 s and then 2 s after the
    failed attempts, and returns the first parsed key set; after three
    failures it returns [None] and raises nothing.  The earlier fetch
    requests the tenant endpoint and then the common one, once each and
    without sleeping, and raises once both failed. *)
Theorem key_fetch_retries cfg w :
  get_public_keys cfg w =
  match first_json 0 (answers3 (net w)) with
  | Some (k, d) => (inr (Some d), {| net := skipn (S k) (net w);
                                      log := log w ++ backoff_log (JWKS_URL cfg) k |})
  | None => (inr None,
             {| net := skipn 3 (net w);
                log := log w ++ [EvRequest (JWKS_URL cfg); EvSleep 1;
                                 EvRequest (JWKS_URL cfg); EvSleep 2;
                                 EvRequest (JWKS_URL cfg)] |})
  end /\
  (all_fail (net w) ->
   exists s, M02.get_public_keys cfg w =
             (inl (OtherExc s), {| net := skipn 2 (net w);
                                   log := log w ++ map EvRequest (M02.endpoints cfg) |})).
Proof.
  split.
  - rewrite get_public_keys_eq. destruct (first_json 0 (answers3 (net w))) as [[k d]|];
      reflexivity.
  - destruct w as [os l]. cbn [net]. unfold all_fail. intros H.
    destruct os as [|o1 [|o2 os]];
      repeat match goal with Hf : Forall _ (_ :: _) |- _ => inversion Hf; subst; clear Hf end;
      cbv beta in *;
      repeat match goal with o : Outcome |- _ => destruct o end;
      try (match goal with Hj : is_json (OJson _) = false |- _ => discriminate Hj end);
      eexists; unfold M02.get_public_keys, M02.endpoints;
      cbn [M02.try_endpoints bind emit recv ret throw net log map skipn];
      repeat rewrite <- app_assoc; reflexivity.
Qed.

(** C9: when no discovery request succeeds, a non-demo token with a
    readable header is never accepted: 500 when its payload cannot be
    decoded, otherwise a 401 ("Invalid token" for an empty payload, the
    expiry message, or the catch-all message of the exception raised by
    the unassigned [public_key]). *)
Theorem verify_no_key_set_rejects lib cfg now tok h w :
  tok <> DEMO_TOKEN -> lib_header lib tok = Some h -> all_fail (net w) ->
  (lib_payload lib tok = None ->
   fst (verify_token lib cfg now tok w) = Rejected 500 "Authentication service unavailable") /\
  (forall c, lib_payload lib tok = Some c ->
   exists d, fst (verify_token lib cfg now tok w) = Rejected 401 d /\
             In d ["Invalid token"; TOKEN_EXPIRED_MSG; "Invalid authentication credentials"]) /\
  (forall ui, fst (verify_token lib cfg now tok w) <> Accepted ui).
Proof.
  intros Hd Hh Hf.
  destruct (verify_no_jwks lib cfg now tok h w Hd Hh Hf) as (w' & E & _).
  rewrite E. simpl fst.
  destruct (lib_payload lib tok) as [c|].
  - destruct (finalize_unbound_401 now c w') as (d & Hr & Hin).
    rewrite Hr. split; [discriminate|]. split.
    + intros c' _. eauto.
    + intros ui. discriminate.
  - split; [reflexivity|]. split; [discriminate|]. intros ui. discriminate.
Qed.

Lemma verify_no_key_set_rejects_witness :
  "tok.carol" <> DEMO_TOKEN /\
  lib_header lib_ex "tok.carol" = Some {| hd_kid := Some "k1"; hd_alg := Some "RS256" |} /\
  all_fail [OTimeout; OHttpErr 503] /\
  (forall ui, fst (verify_run lib_ex cfg_ex now_ex "tok.carol" [OTimeout; OHttpErr 503])
              <> Accepted ui).
Proof.
  split; [discriminate|]. split; [reflexivity|]. split; [repeat constructor|].
  exact (proj2 (proj2 (verify_no_key_set_rejects lib_ex cfg_ex now_ex "tok.carol"
           {| hd_kid := Some "k1"; hd_alg := Some "RS256" |}
           {| net := [OTimeout; OHttpErr 503]; log := [] |}
           ltac:(discriminate) eq_refl ltac:(repeat constructor)))).
Defined.

(** C10: a token whose payload has no [exp] is never rejected as
    expired, and for a non-empty payload [finalize] is exactly the
    identity extraction. *)
Theorem verify_no_exp_not_expired lib cfg now tok w c :
  lib_payload lib tok = Some c -> ~ In "exp" (map fst c) ->
  fst (verify_token lib cfg now tok w) <> Rejected 401 TOKEN_EXPIRED_MSG /\
  (forall pk w0, c <> [] -> finalize now c pk w0 = build_user_info c pk w0).
Proof.
  intros Hp Hn.
  assert (Hfin : forall pk w0, c <> [] -> finalize now c pk w0 = build_user_info c pk w0).
  { intros pk w0 Hc. unfold finalize.
    destruct c as [|p c']; [contradiction|].
    cbv beta iota delta [claims_truthy]. rewrite (get_absent _ _ Hn). reflexivity. }
  split; [|exact Hfin].
  unfold TOKEN_EXPIRED_MSG.
  destruct (String.eqb_spec tok DEMO_TOKEN) as [->|Hd].
  { unfold verify_token, verify_body. simpl. discriminate. }
  unfold verify_token. destruct (verify_body lib cfg now tok w) as [r w'] eqn:E.
  destruct (verify_body_paths lib cfg now tok w r w' Hd E)
    as (new & _ & [[-> _] | [(Hp' & _) | (c' & pk & Hp' & -> & _)]]).
  - discriminate.
  - congruence.
  - rewrite Hp in Hp'. injection Hp' as <-.
    destruct c as [|p c']; [discriminate|].
    rewrite Hfin by discriminate.
    destruct (build_user_info (p :: c') pk w') as [[e|ui] w''] eqn:Eb; simpl.
    + destruct (raises_other_build_user_info _ _ _ _ _ Eb) as [s ->]. discriminate.
    + discriminate.
Qed.

Lemma verify_no_exp_not_expired_witness :
  lib_payload lib_ex "tok.carol" = Some carol_claims /\
  ~ In "exp" (map fst carol_claims) /\
  fst (verify_run lib_ex cfg_ex now_ex "tok.carol" net_k1) <> Rejected 401 TOKEN_EXPIRED_MSG.
Proof.
  assert (Hn : ~ In "exp" (map fst carol_claims)).
  { simpl. intros [H|[H|H]]; [discriminate H | discriminate H | exact H]. }
  split; [reflexivity|]. split; [exact Hn|].
  exact (proj1 (verify_no_exp_not_expired lib_ex cfg_ex now_ex "tok.carol"
                  {| net := net_k1; log := [] |} carol_claims eq_refl Hn)).
Defined.

(** A non-demo token whose payload has a non-zero [exp] in the past
    (within [datetime]'s range) is rejected: as expired when its header
    can be read, as an invalid format when it cannot.  [exp = 0] is the
    only past value that escapes. *)
Theorem verify_rejects_expired lib cfg now tok w c z :
  tok <> DEMO_TOKEN -> lib_payload lib tok = Some c ->
  get c "exp" = VNum z -> z <> 0%Z ->
  (-62135596800 <= z <= 253402300799)%Z -> (z * 1000000 < now)%Z ->
  fst (verify_token lib cfg now tok w) =
  match lib_header lib tok with
  | Some _ => Rejected 401 TOKEN_EXPIRED_MSG
  | None => Rejected 401 "Invalid token format"
  end.
Proof.
  intros Hd Hp Hg Hz Hr Hlt.
  unfold verify_token. destruct (verify_body lib cfg now tok w) as [r w'] eqn:E.
  destruct (lib_header lib tok) as [h|] eqn:Hh.
  - destruct (verify_body_paths lib cfg now tok w r w' Hd E)
      as (new & _ & [[_ Hh'] | [(Hp' & _) | (c' & pk & Hp' & -> & _)]]).
    + congruence.
    + congruence.
    + rewrite Hp in Hp'. injection Hp' as <-.
      rewrite (finalize_expired now c pk w' z Hg Hz Hr Hlt). reflexivity.
  - pose proof (verify_body_no_header lib cfg now tok w Hd Hh) as F.
    rewrite E in F. simpl in F. subst r. reflexivity.
Qed.

Lemma verify_rejects_expired_witness :
  fst (verify_run lib_ex cfg_ex now_ex "tok.old" net_k1) =
  match lib_header lib_ex "tok.old" with
  | Some _ => Rejected 401 TOKEN_EXPIRED_MSG
  | None => Rejected 401 "Invalid token format"
  end.
Proof.
  apply (verify_rejects_expired lib_ex cfg_ex now_ex "tok.old" {| net := net_k1; log := [] |}
           old_claims 1600000000%Z);
    [discriminate | reflexivity | reflexivity | discriminate
    | vm_compute; split; discriminate | vm_compute; reflexivity].
Defined.

(* ------------------------------------------------------------------ *)
(** ** Further properties *)

Lemma build_user_info_not_http c pk w s d :
  fst (build_user_info c pk w) <> inl (HTTPExc s d).
Proof.
  destruct (build_user_info c pk w) as [[e|ui] w'] eqn:E; simpl; [|discriminate].
  destruct (raises_other_build_user_info _ _ _ _ _ E) as [s' ->]. discriminate.
Qed.

(** The expiry check rejects a payload as expired exactly when the
    payload is non-empty and its [exp] is a non-zero number within
    [datetime]'s range and before [now], or is [True] (one second after
    the epoch) with [now] past it. *)
Theorem finalize_expired_iff now c pk w :
  fst (finalize now c pk w) = inl (HTTPExc 401 TOKEN_EXPIRED_MSG) <->
  c <> [] /\
  ((exists z, get c "exp" = VNum z /\ z <> 0%Z /\
              (-62135596800 <= z <= 253402300799)%Z /\ (z * 1000000 < now)%Z)
   \/ (get c "exp" = VBool true /\ (1000000 < now)%Z)).
Proof.
  destruct c as [|p c'].
  { unfold finalize. simpl. split; [discriminate|]. intros [H _]. congruence. }
  unfold finalize. cbv beta iota delta [claims_truthy].
  set (c := p :: c').
  assert (Hc : c <> []) by discriminate.
  destruct (get c "exp") as [s|z|b| |l|kvs] eqn:Hg;
    unfold bind, fromtimestamp, ret, throw; cbn [truthy];
    repeat match goal with |- context [if ?b then _ else _] => destruct b eqn:? end;
    cbn [fst];
    split; intros H;
    try (exfalso; eapply build_user_info_not_http; exact H);
    try discriminate H;
    repeat match goal with
           | Hb : (_ && _)%bool = _ |- _ => first [apply andb_true_iff in Hb | apply andb_false_iff in Hb]
           | Hb : _ /\ _ |- _ => destruct Hb
           | Hb : negb _ = _ |- _ => apply (f_equal negb) in Hb; rewrite negb_involutive in Hb; cbn [negb] in Hb
           | Hb : Z.eqb _ _ = true |- _ => apply Z.eqb_eq in Hb
           | Hb : Z.eqb _ _ = false |- _ => apply Z.eqb_neq in Hb
           | Hb : Z.leb _ _ = true |- _ => apply Z.leb_le in Hb
           | Hb : Z.leb _ _ = false |- _ => apply Z.leb_gt in Hb
           | Hb : Z.ltb _ _ = true |- _ => apply Z.ltb_lt in Hb
           | Hb : Z.ltb _ _ = false |- _ => apply Z.ltb_ge in Hb
           end.
  all: first
    [ reflexivity
    | split; [exact Hc|];
      first [ left; eexists; split; [reflexivity|]; repeat split; lia
            | right; split; [reflexivity|]; lia ]
    | exfalso;
      match goal with
      | Hx : (exists _, _) \/ _ |- _ => destruct Hx as [(z' & Hz' & Hz0 & Hr & Hl) | (Hz' & Hl)]
      end;
      try discriminate Hz'; try (injection Hz' as <-); lia
    ].
Qed.


(* ---- request bound ---- *)
Lemma requests_of_app l1 l2 : requests_of (l1 ++ l2) = requests_of l1 ++ requests_of l2.
Proof. unfold requests_of. apply flat_map_app. Qed.

Lemma reqs_le_ret n {A} (a : A) : reqs_le n (ret a).
Proof. intros w. exists []. simpl. rewrite app_nil_r. split; [reflexivity|lia]. Qed.

Lemma reqs_le_throw n {A} e : reqs_le n (@throw A e).
Proof. intros w. exists []. simpl. rewrite app_nil_r. split; [reflexivity|lia]. Qed.

Lemma reqs_le_emit n e : (length (requests_of [e]) <= n)%nat -> reqs_le n (emit e).
Proof. intros H w. exists [e]. split; [reflexivity|exact H]. Qed.

Lemma reqs_le_recv n : reqs_le n recv.
Proof.
  intros [[|o os] l]; exists []; simpl; rewrite app_nil_r; split; auto; lia.
Qed.

Lemma reqs_le_silent n {A} (m : M A) : silent m -> reqs_le n m.
Proof. intros H w. exists []. rewrite H, app_nil_r. simpl. split; [reflexivity|lia]. Qed.

Lemma reqs_le_mono a b {A} (m : M A) : (a <= b)%nat -> reqs_le a m -> reqs_le b m.
Proof. intros Hab H w. destruct (H w) as (n & L & C). exists n. split; [exact L|lia]. Qed.

Lemma reqs_le_bind a b {A B} (m : M A) (f : A -> M B) :
  reqs_le a m -> (forall x, reqs_le b (f x)) -> reqs_le (a + b) (bind m f).
Proof.
  intros Hm Hf w. destruct (Hm w) as (n1 & L1 & C1). unfold bind.
  destruct (m w) as [[e|x] w1] eqn:E; simpl in *.
  - exists n1. split; [exact L1|lia].
  - destruct (Hf x w1) as (n2 & L2 & C2). exists (n1 ++ n2).
    rewrite L2, L1, app_assoc, requests_of_app, length_app. split; [reflexivity|lia].
Qed.

Lemma reqs_le_bind0 n {A B} (m : M A) (f : A -> M B) :
  reqs_le 0 m -> (forall x, reqs_le n (f x)) -> reqs_le n (bind m f).
Proof. intros Hm Hf. apply (reqs_le_bind 0 n); assumption. Qed.

Lemma gpk_loop_reqs url mr atts : reqs_le (length atts) (gpk_loop url mr atts).
Proof.
  induction atts as [|a atts IH]; simpl; [apply reqs_le_ret|].
  apply (reqs_le_bind 1 (length atts)); [apply reqs_le_emit; simpl; lia|intros _].
  apply reqs_le_bind0; [apply reqs_le_recv|intros o].
  destruct o; try apply reqs_le_ret;
    (apply reqs_le_bind0; [destruct (Nat.ltb _ _); [apply reqs_le_emit; simpl; lia|apply reqs_le_ret]|intros _; exact IH]).
Qed.

Lemma fetch_loop_reqs cfg atts j : reqs_le (3 * length atts) (fetch_loop cfg atts j).
Proof.
  revert j. induction atts as [|a atts IH]; intros j; simpl; [apply reqs_le_ret|].
  apply (reqs_le_mono (3 + 3 * length atts)); [lia|].
  apply reqs_le_bind; [exact (gpk_loop_reqs _ _ _)|intros j'].
  destruct (jwks_truthy j'); [apply reqs_le_ret|apply IH].
Qed.

Lemma select_key_reqs lib kid keys : reqs_le 0 (select_key lib kid keys).
Proof.
  induction keys as [|k keys IH]; simpl; [apply reqs_le_ret|].
  destruct (kid_eq _ _); [|exact IH].
  apply reqs_le_bind0; [apply reqs_le_emit; simpl; lia|intros _].
  destruct (lib_from_jwk lib k); [apply reqs_le_ret|exact IH].
Qed.

Lemma run_strategies_reqs dec i sts : reqs_le 0 (run_strategies dec i sts).
Proof.
  revert i. induction sts as [|st sts IH]; intros i; simpl; [apply reqs_le_ret|].
  destruct (dec st); (apply reqs_le_bind0; [apply reqs_le_emit; simpl; lia|intros _]);
    [apply reqs_le_ret|apply IH].
Qed.

Lemma unverified_decode_reqs lib tok err : reqs_le 0 (unverified_decode lib tok err).
Proof.
  unfold unverified_decode. apply reqs_le_bind0; [apply reqs_le_emit; simpl; lia|intros _].
  destruct (lib_payload lib tok); [apply reqs_le_ret|apply reqs_le_throw].
Qed.

Lemma parse_header_reqs lib tok : reqs_le 0 (parse_header lib tok).
Proof.
  unfold parse_header. apply reqs_le_bind0; [apply reqs_le_emit; simpl; lia|intros _].
  destruct (lib_header lib tok); [apply reqs_le_ret|apply reqs_le_throw].
Qed.

Ltac reqs0 :=
  repeat first
    [ apply reqs_le_ret | apply reqs_le_throw
    | apply reqs_le_silent; apply finalize_silent
    | apply select_key_reqs | apply run_strategies_reqs | apply unverified_decode_reqs
    | apply reqs_le_bind0; [|intros ?]
    | match goal with |- reqs_le _ (match ?x with _ => _ end) => destruct x end
    | match goal with |- reqs_le _ (if ?x then _ else _) => destruct x end ].

Lemma verify_body_reqs lib cfg now tok : reqs_le 9 (verify_body lib cfg now tok).
Proof.
  unfold verify_body. destruct (String.eqb tok DEMO_TOKEN); [apply reqs_le_ret|].
  apply reqs_le_bind0; [apply reqs_le_emit; simpl; lia|intros _].
  apply reqs_le_bind0; [apply parse_header_reqs|intros hdr].
  apply (reqs_le_bind 9 0); [exact (fetch_loop_reqs cfg (seq 0 3) None)|intros jwks].
  reqs0.
Qed.

(* ---- the only URL is JWKS_URL ---- *)
Lemma verify_body_urls lib cfg now tok : only (requests_to (JWKS_URL cfg)) (verify_body lib cfg now tok).
Proof.
  assert (Hne : forall e, (forall u, e <> EvRequest u) -> requests_to (JWKS_URL cfg) e)
    by (intros e He v Hv; exfalso; exact (He v Hv)).
  assert (Hgpk : forall atts, only (requests_to (JWKS_URL cfg)) (gpk_loop (JWKS_URL cfg) 3 atts)).
  { induction atts as [|a atts IH]; simpl; auto with effects.
    apply only_bind; [apply only_emit; intros v Hv; injection Hv; auto|intros _].
    apply only_bind; auto with effects. intros o.
    destruct o; auto with effects;
      (apply only_bind; [destruct (Nat.ltb _ _); auto with effects; apply only_emit, Hne; discriminate|auto]). }
  assert (Hfetch : forall atts j, only (requests_to (JWKS_URL cfg)) (fetch_loop cfg atts j)).
  { induction atts as [|a atts IH]; intros j; simpl; auto with effects.
    apply only_bind; [apply Hgpk|intros j']. destruct (jwks_truthy j'); auto with effects. }
  assert (Hsel : forall kid keys, only (requests_to (JWKS_URL cfg)) (select_key lib kid keys)).
  { intros kid keys. induction keys as [|k keys IH]; simpl; auto with effects.
    destruct (kid_eq _ _); auto.
    apply only_bind; [apply only_emit, Hne; discriminate|intros _].
    destruct (lib_from_jwk lib k); auto with effects. }
  assert (Hrun : forall dec i sts, only (requests_to (JWKS_URL cfg)) (run_strategies dec i sts)).
  { intros dec i sts. revert i. induction sts as [|st sts IH]; intros i; simpl; auto with effects.
    destruct (dec st); apply only_bind; auto with effects; apply only_emit, Hne; discriminate. }
  assert (Hdec : forall err, only (requests_to (JWKS_URL cfg)) (unverified_decode lib tok err)).
  { intros err. unfold unverified_decode.
    apply only_bind; [apply only_emit, Hne; discriminate|intros _].
    destruct (lib_payload lib tok); auto with effects. }
  unfold verify_body. destruct (String.eqb tok DEMO_TOKEN); auto with effects.
  apply only_bind; [apply only_emit, Hne; discriminate|intros _].
  apply only_bind; [unfold parse_header; apply only_bind;
                    [apply only_emit, Hne; discriminate|intros _; destruct (lib_header lib tok); auto with effects]
                   |intros hdr].
  apply only_bind; [apply Hfetch|intros jwks].
  repeat first
    [ apply Hsel | apply Hrun | apply Hdec | apply silent_only; apply finalize_silent
    | apply only_ret | apply only_throw
    | apply only_bind; [|intros ?]
    | match goal with |- only _ (match ?x with _ => _ end) => destruct x end
    | match goal with |- only _ (if ?x then _ else _) => destruct x end ].
Qed.

Lemma requests_to_all u l : Forall (requests_to u) l -> Forall (fun v => v = u) (requests_of l).
Proof.
  induction 1 as [|e l He H IH]; [constructor|].
  unfold requests_of in *. simpl. apply Forall_app. split; [|exact IH].
  destruct e; simpl; repeat constructor. apply He. reflexivity.
Qed.

(** A call of [verify_token] issues at most nine discovery requests
    (three calls of [get_public_keys] with three attempts each), all to
    [JWKS_URL]; it only appends to the log. *)
Theorem verify_requests_bounded lib cfg now tok w :
  exists new, log (snd (verify_token lib cfg now tok w)) = log w ++ new /\
    (length (requests_of new) <= 9)%nat /\
    Forall (fun u => u = JWKS_URL cfg) (requests_of new).
Proof.
  destruct (verify_body_reqs lib cfg now tok w) as (n1 & L1 & C1).
  destruct (verify_body_urls lib cfg now tok w) as (n2 & L2 & F2).
  unfold verify_token. destruct (verify_body lib cfg now tok w) as [r w'].
  simpl in *. rewrite L2 in L1. apply app_inv_head in L1. subst n2.
  exists n1. split; [exact L2|]. split; [exact C1|]. apply requests_to_all, F2.
Qed.

(** A non-demo token whose header cannot be decoded is rejected with
    401 "Invalid token format" after the payload preview and the header
    decode, before any discovery request. *)
Theorem verify_bad_header lib cfg now tok w :
  tok <> DEMO_TOKEN -> lib_header lib tok = None ->
  verify_token lib cfg now tok w =
  (Rejected 401 "Invalid token format",
   {| net := net w; log := log w ++ [EvDecodeUnverified; EvHeader] |}).
Proof.
  intros Hd Hh. unfold verify_token, verify_body.
  destruct (String.eqb_spec tok DEMO_TOKEN) as [|_]; [contradiction|].
  rewrite (bind_inr _ _ _ _ _ (emit_eq _ _)).
  rewrite (bind_inl _ _ _ _ _ (parse_header_none _ _ _ Hh)).
  simpl. rewrite <- app_assoc. reflexivity.
Qed.

Lemma verify_bad_header_witness :
  verify_run lib_ex cfg_ex now_ex "not-a-jwt" net_k1 =
  (Rejected 401 "Invalid token format",
   {| net := net_k1; log := [EvDecodeUnverified; EvHeader] |}).
Proof.
  exact (verify_bad_header lib_ex cfg_ex now_ex "not-a-jwt" {| net := net_k1; log := [] |}
           ltac:(discriminate) eq_refl).
Defined.

(** An accepted token is the demo token with the demo identity, or
    its identity carries a [validated] label that is ["full"] or
    ["unverified"], and an ["unverified"] label means no signature check
    was attempted during the call. *)
Theorem verify_label_sound lib cfg now tok w ui w' :
  verify_token lib cfg now tok w = (Accepted ui, w') ->
  (tok = DEMO_TOKEN /\ ui = demo_user_info) \/
  (tok <> DEMO_TOKEN /\
   exists d new, ui_details ui = Some d /\ log w' = log w ++ new /\
     (d_validated d = "full" \/ (d_validated d = "unverified" /\ Forall no_verify new))).
Proof.
  intros E. unfold verify_token in E.
  destruct (verify_body lib cfg now tok w) as [r w1] eqn:Eb.
  injection E as Hr <-.
  destruct (String.eqb_spec tok DEMO_TOKEN) as [->|Hd].
  - left. split; [reflexivity|].
    unfold verify_body in Eb. rewrite String.eqb_refl in Eb.
    injection Eb as <- _. injection Hr as <-. reflexivity.
  - right. split; [exact Hd|].
    destruct (verify_body_paths lib cfg now tok w r w1 Hd Eb)
      as (new & L & [[-> _] | [(_ & Hin) | (c & pk & _ & -> & Hnv)]]).
    + discriminate Hr.
    + simpl in Hin. destruct Hin as [<-|[<-|[<-|[]]]]; discriminate Hr.
    + destruct (finalize now c pk w1) as [[e|ui0] w2] eqn:Ef.
      { destruct e; discriminate Hr. }
      injection Hr as <-.
      destruct (finalize_ok _ _ _ _ _ _ Ef) as (_ & d & Hd' & Hl).
      exists d, new. split; [exact Hd'|]. split; [exact L|].
      destruct pk as [|[k|]]; simpl in Hl; [right|left|right]; auto.
Qed.

Lemma verify_label_sound_witness :
  verify_token lib_ex cfg_ex now_ex "tok.alice" {| net := net_k2; log := [] |} =
  (Accepted alice_unverified,
   {| net := []; log := [EvDecodeUnverified; EvHeader; EvRequest (JWKS_URL cfg_ex);
                         EvDecodeUnverified] |}) /\
  ((("tok.alice" = DEMO_TOKEN) /\ alice_unverified = demo_user_info) \/
   ("tok.alice" <> DEMO_TOKEN /\
    exists d new, ui_details alice_unverified = Some d /\
      [EvDecodeUnverified; EvHeader; EvRequest (JWKS_URL cfg_ex); EvDecodeUnverified] = [] ++ new /\
      (d_validated d = "full" \/ (d_validated d = "unverified" /\ Forall no_verify new)))).
Proof.
  assert (E : verify_token lib_ex cfg_ex now_ex "tok.alice" {| net := net_k2; log := [] |} =
              (Accepted alice_unverified,
               {| net := []; log := [EvDecodeUnverified; EvHeader; EvRequest (JWKS_URL cfg_ex);
                                     EvDecodeUnverified] |})) by reflexivity.
  split; [exact E|].
  exact (verify_label_sound _ _ _ _ _ _ _ E).
Defined.

(** A non-demo token whose payload has an [exp] that [datetime] cannot
    convert (a non-empty string, a non-empty array or object, or a
    number outside [datetime]'s range) is never accepted: when its
    header can be read the conversion raises and the catch-all answers
    401 "Invalid authentication credentials", whatever the signature
    checks gave; when it cannot, the answer is 401 "Invalid token
    format". *)
Theorem verify_bad_exp lib cfg now tok w c :
  tok <> DEMO_TOKEN -> lib_payload lib tok = Some c ->
  bad_exp (get c "exp") = true ->
  fst (verify_token lib cfg now tok w) =
  match lib_header lib tok with
  | Some _ => Rejected 401 "Invalid authentication credentials"
  | None => Rejected 401 "Invalid token format"
  end.
Proof.
  intros Hd Hp Hexp.
  unfold verify_token. destruct (verify_body lib cfg now tok w) as [r w'] eqn:E.
  destruct (lib_header lib tok) as [h|] eqn:Hh.
  - destruct (verify_body_paths lib cfg now tok w r w' Hd E)
      as (new & _ & [[_ Hh'] | [(Hp' & _) | (c' & pk & Hp' & -> & _)]]).
    + congruence.
    + congruence.
    + rewrite Hp in Hp'. injection Hp' as <-.
      destruct (finalize_bad_exp now c pk w' Hexp) as [s ->]. reflexivity.
  - pose proof (verify_body_no_header lib cfg now tok w Hd Hh) as F.
    rewrite E in F. simpl in F. subst r. reflexivity.
Qed.

Lemma verify_bad_exp_witness :
  fst (verify_run lib_more cfg_ex now_ex "tok.strexp" net_k1) =
  match lib_header lib_more "tok.strexp" with
  | Some _ => Rejected 401 "Invalid authentication credentials"
  | None => Rejected 401 "Invalid token format"
  end.
Proof.
  apply (verify_bad_exp lib_more cfg_ex now_ex "tok.strexp" {| net := net_k1; log := [] |}
           [("sub", VStr "abc"); ("exp", VStr "tomorrow")]);
    [discriminate | reflexivity | vm_compute; reflexivity].
Defined.

(** The key loop finds the key converted from the first JWK whose
    [kid] matches and whose conversion succeeds, skipping the matching
    ones whose conversion fails; it finds none exactly when every JWK is
    skipped. *)
Theorem select_key_first lib kid keys w :
  (forall k, fst (select_key lib kid keys w) = inr (Some k) <->
     exists pre j post, keys = pre ++ j :: post /\
       Forall (fun j' => kid_eq (jwk_kid j') kid = false \/ lib_from_jwk lib j' = None) pre /\
       kid_eq (jwk_kid j) kid = true /\ lib_from_jwk lib j = Some k) /\
  (fst (select_key lib kid keys w) = inr None <->
     Forall (fun j => kid_eq (jwk_kid j) kid = false \/ lib_from_jwk lib j = None) keys).
Proof.
  revert w. induction keys as [|j0 rest IH]; intros w.
  - simpl. split.
    + intros k. split; [discriminate|].
      intros (pre & j & post & Hs & _). destruct pre; discriminate Hs.
    + split; auto.
  - (* a key that is skipped leaves the rest of the search *)
    assert (Skip : forall w',
              (kid_eq (jwk_kid j0) kid = false \/ lib_from_jwk lib j0 = None) ->
              fst (select_key lib kid (j0 :: rest) w) = fst (select_key lib kid rest w') ->
              (forall k, fst (select_key lib kid (j0 :: rest) w) = inr (Some k) <->
                 exists pre j post, j0 :: rest = pre ++ j :: post /\
                   Forall (fun j' => kid_eq (jwk_kid j') kid = false \/ lib_from_jwk lib j' = None) pre /\
                   kid_eq (jwk_kid j) kid = true /\ lib_from_jwk lib j = Some k) /\
              (fst (select_key lib kid (j0 :: rest) w) = inr None <->
                 Forall (fun j => kid_eq (jwk_kid j) kid = false \/ lib_from_jwk lib j = None)
                        (j0 :: rest))).
    { intros w' Hskip Heq. rewrite Heq. destruct (IH w') as [IH1 IH2]. split.
      - intros k. rewrite IH1. split.
        + intros (pre & j & post & Hs & Hpre & Hkj & Hfj).
          exists (j0 :: pre), j, post. subst rest. repeat split; auto.
        + intros (pre & j & post & Hs & Hpre & Hkj & Hfj).
          destruct pre as [|x pre]; simpl in Hs; injection Hs as Hx Hs.
          * subst j. exfalso. destruct Hskip; congruence.
          * subst x. inversion Hpre; subst. exists pre, j, post. auto.
      - rewrite IH2. split; [intros H; constructor; auto|intros H; inversion H; auto]. }
    simpl select_key. destruct (kid_eq (jwk_kid j0) kid) eqn:Hk.
    + rewrite (bind_inr _ _ _ _ _ (emit_eq _ _)).
      destruct (lib_from_jwk lib j0) as [k0|] eqn:Hf.
      * unfold ret. cbn [fst]. split.
        -- intros k. split.
           ++ intros H. injection H as <-. exists [], j0, rest. auto.
           ++ intros (pre & j & post & Hs & Hpre & Hkj & Hfj).
              destruct pre as [|x pre]; simpl in Hs; injection Hs as Hx Hs.
              ** subst j. congruence.
              ** subst x. inversion Hpre; subst.
                 match goal with Hd : _ \/ _ |- _ => destruct Hd end; congruence.
        -- split; [discriminate|].
           intros H. inversion H; subst.
           match goal with Hd : _ \/ _ |- _ => destruct Hd end; congruence.
      * specialize (Skip {| net := net w; log := log w ++ [EvFromJwk] |} (or_intror eq_refl)).
        simpl select_key in Skip. rewrite Hk, (bind_inr _ _ _ _ _ (emit_eq _ _)), Hf in Skip.
        apply Skip. reflexivity.
    + specialize (Skip w (or_introl eq_refl)).
      simpl select_key in Skip. rewrite Hk in Skip. apply Skip. reflexivity.
Qed.

(** [exchange_code_for_token] returns MSAL's result exactly when it
    has an ["access_token"]; every failure, the missing token included,
    surfaces as 500 "Token exchange failed" (the 400 raised inside the
    [try] is caught), and the call touches no state. *)
Theorem exchange_code_outcome acquire code w :
  snd (exchange_code_for_token acquire code w) = w /\
  (forall r, fst (exchange_code_for_token acquire code w) = inr r <->
             acquire code = Some r /\ has_key r "access_token" = true) /\
  (forall e, fst (exchange_code_for_token acquire code w) = inl e ->
             e = HTTPExc 500 "Token exchange failed").
Proof.
  unfold exchange_code_for_token, catch, ret, throw.
  destruct (acquire code) as [r0|] eqn:Ha;
    [destruct (has_key r0 "access_token") eqn:Hk|]; cbn [fst snd];
    (split; [reflexivity|]); split; intros r.
  - split; [intros H; injection H as <-; auto|intros [H _]; congruence].
  - discriminate.
  - split; [discriminate|intros [H H']; injection H as <-; congruence].
  - intros H; injection H as <-; reflexivity.
  - split; [discriminate|intros [H _]; discriminate].
  - intros H; injection H as <-; reflexivity.
Qed.

Lemma catch_inr {A} (m : M A) h w a w' : m w = (inr a, w') -> catch m h w = (inr a, w').
Proof. intros E. unfold catch. rewrite E. reflexivity. Qed.

Lemma catch_inl {A} (m : M A) h w e w' : m w = (inl e, w') -> catch m h w = h e w'.
Proof. intros E. unfold catch. rewrite E. reflexivity. Qed.

Lemma first_json_all_fail2 os : all_fail os -> first_json 0 (answers2 os) = None.
Proof.
  intros H. unfold answers2.
  destruct H as [|o1 os H1 H]; [reflexivity|].
  destruct H as [|o2 os H2 H]; destruct o1; try discriminate;
    try (destruct o2; try discriminate); reflexivity.
Qed.

Lemma select_key_pre lib kid keys : only pre_decode (select_key lib kid keys).
Proof.
  induction keys as [|k keys IH]; simpl; auto with effects.
  destruct (kid_eq _ _); auto.
  apply only_bind; [apply only_emit; right; left; reflexivity|intros _].
  destruct (lib_from_jwk lib k); auto with effects.
Qed.

Lemma select_key_fst_indep lib kid keys w1 w2 :
  fst (select_key lib kid keys w1) = fst (select_key lib kid keys w2).
Proof.
  revert w1 w2. induction keys as [|k keys IH]; intros w1 w2; simpl; [reflexivity|].
  destruct (kid_eq _ _); [|apply IH].
  rewrite !(bind_inr _ _ _ _ _ (emit_eq _ _)).
  destruct (lib_from_jwk lib k); [reflexivity|apply IH].
Qed.

Lemma m02_build_fst_indep c w1 w2 :
  fst (M02.build_user_info c w1) = fst (M02.build_user_info c w2).
Proof.
  unfold M02.build_user_info, M02.synth_user, por, bind, ret, throw.
  repeat match goal with |- context [truthy ?v] => destruct (truthy v) end;
    try destruct (lookup c "sub") as [[]|]; reflexivity.
Qed.

Lemma m02_fst_vresult (X : (Exc + M02.UserInfo) * World) :
  fst (let (r, w') := X in (M02.to_vresult r, w')) = M02.to_vresult (fst X).
Proof. destruct X. reflexivity. Qed.

(** Earlier version: when neither discovery endpoint answers, a
    non-demo token with a readable header is rejected with 401 "Unable
    to validate token" after one request to each endpoint, in order. *)
Theorem m02_keys_unavailable lib cfg tok h w :
  tok <> M02.DEMO_TOKEN -> lib_header lib tok = Some h -> all_fail (net w) ->
  M02.verify_token lib cfg tok w =
  (M02.Rejected 401 "Unable to validate token",
   {| net := skipn 2 (net w); log := log w ++ EvHeader :: map EvRequest (M02.endpoints cfg) |}).
Proof.
  intros Hd Hh Hf. unfold M02.verify_token, M02.verify_body.
  destruct (String.eqb_spec tok M02.DEMO_TOKEN) as [|_]; [contradiction|].
  rewrite (bind_inr _ _ _ _ _ (parse_header_some _ _ _ _ Hh)).
  match goal with |- context [bind (catch (M02.get_public_keys cfg) ?hh) _ ?w2] =>
    assert (E2 : catch (M02.get_public_keys cfg) hh w2 =
                 (inl (HTTPExc 401 "Unable to validate token"),
                  {| net := skipn 2 (net w2); log := log w2 ++ map EvRequest (M02.endpoints cfg) |}))
      by (erewrite catch_inl;
          [reflexivity|rewrite m02_fetch_eq; cbn [net]; rewrite first_json_all_fail2 by exact Hf;
                       reflexivity]);
    rewrite (bind_inl _ _ _ _ _ E2)
  end.
  cbn [net log]. rewrite <- app_assoc. reflexivity.
Qed.

Lemma m02_keys_unavailable_witness :
  M02.verify_token lib_ex cfg_ex "tok.carol" {| net := [OTimeout; OHttpErr 503]; log := [] |} =
  (M02.Rejected 401 "Unable to validate token",
   {| net := []; log := EvHeader :: map EvRequest (M02.endpoints cfg_ex) |}).
Proof.
  exact (m02_keys_unavailable lib_ex cfg_ex "tok.carol"
           {| hd_kid := Some "k1"; hd_alg := Some "RS256" |}
           {| net := [OTimeout; OHttpErr 503]; log := [] |}
           ltac:(discriminate) eq_refl ltac:(repeat constructor)).
Defined.

(** Earlier version: when the fetched key set has no key matching the
    token's [kid] that converts, the token is rejected with 401 "Invalid
    token signature" before any decode of the token. *)
Theorem m02_unknown_kid lib cfg tok h n d w :
  tok <> M02.DEMO_TOKEN -> lib_header lib tok = Some h ->
  first_json 0 (answers2 (net w)) = Some (n, d) ->
  Forall (fun j => kid_eq (jwk_kid j) (hd_kid h) = false \/ lib_from_jwk lib j = None)
         (jwks_keys d) ->
  exists w', M02.verify_token lib cfg tok w = (M02.Rejected 401 M02.INVALID_TOKEN_MSG, w') /\
    exists new, log w' = log w ++ new /\ Forall pre_decode new.
Proof.
  intros Hd Hh Hj Hn. unfold M02.verify_token, M02.verify_body.
  destruct (String.eqb_spec tok M02.DEMO_TOKEN) as [|_]; [contradiction|].
  rewrite (bind_inr _ _ _ _ _ (parse_header_some _ _ _ _ Hh)).
  erewrite bind_inr;
    [|apply catch_inr; rewrite m02_fetch_eq; cbn [net]; rewrite Hj; reflexivity].
  cbv beta iota.
  erewrite bind_inr; [|reflexivity]. cbv beta.
  match goal with |- context [bind (select_key lib (hd_kid h) (jwks_keys d)) _ ?w4] =>
    destruct (select_key_none lib (hd_kid h) (jwks_keys d) w4 Hn) as (w5 & E5 & _);
    destruct (only_run _ _ _ _ _ (select_key_pre lib (hd_kid h) (jwks_keys d)) E5)
      as (n5 & L5 & F5)
  end.
  rewrite (bind_inr _ _ _ _ _ E5). unfold throw.
  eexists. split; [reflexivity|].
  exists (EvHeader :: map EvRequest (firstn (S n) (M02.endpoints cfg)) ++ n5). split.
  - rewrite L5. cbn [log]. repeat rewrite <- app_assoc. reflexivity.
  - apply Forall_cons; [left; reflexivity|].
    apply Forall_app. split; [|exact F5].
    apply Forall_forall. intros e He. apply in_map_iff in He.
    destruct He as (u & Hu & _). right; right. exists u. symmetry. exact Hu.
Qed.

Lemma m02_unknown_kid_witness :
  exists w', M02.verify_token lib_ex cfg_ex "tok.carol" {| net := net_k2; log := [] |} =
             (M02.Rejected 401 M02.INVALID_TOKEN_MSG, w') /\
    exists new, log w' = [] ++ new /\ Forall pre_decode new.
Proof.
  exact (m02_unknown_kid lib_ex cfg_ex "tok.carol"
           {| hd_kid := Some "k1"; hd_alg := Some "RS256" |} 0
           {| doc_keys := Some [jwk_k2]; doc_other := 0 |}
           {| net := net_k2; log := [] |}
           ltac:(discriminate) eq_refl eq_refl ltac:(repeat constructor)).
Defined.

(** Earlier version: once a key matching the token's [kid] converts,
    the outcome no longer depends on any signature check: it is the
    identity built from the token's unverified payload, expired or not,
    or 401 "Token validation failed" when the payload cannot be decoded. *)
Theorem m02_decode_after_key lib cfg tok h n d k w :
  tok <> M02.DEMO_TOKEN -> lib_header lib tok = Some h ->
  first_json 0 (answers2 (net w)) = Some (n, d) ->
  fst (select_key lib (hd_kid h) (jwks_keys d) w) = inr (Some k) ->
  fst (M02.verify_token lib cfg tok w) =
  match lib_payload lib tok with
  | Some c => M02.to_vresult (fst (M02.build_user_info c w))
  | None => M02.Rejected 401 "Token validation failed"
  end.
Proof.
  intros Hd Hh Hj Hk. unfold M02.verify_token. rewrite m02_fst_vresult.
  unfold M02.verify_body.
  destruct (String.eqb_spec tok M02.DEMO_TOKEN) as [|_]; [contradiction|].
  rewrite (bind_inr _ _ _ _ _ (parse_header_some _ _ _ _ Hh)).
  erewrite bind_inr;
    [|apply catch_inr; rewrite m02_fetch_eq; cbn [net]; rewrite Hj; reflexivity].
  cbv beta iota.
  erewrite bind_inr; [|reflexivity]. cbv beta.
  match goal with |- context [bind (select_key lib (hd_kid h) (jwks_keys d)) _ ?w4] =>
    destruct (select_key lib (hd_kid h) (jwks_keys d) w4) as [[e|pk] w5] eqn:E5;
    [exfalso; eapply select_key_never_raises; exact E5|];
    assert (Hpk : inr pk = @inr Exc (option Key) (Some k))
      by (rewrite <- Hk, (select_key_fst_indep lib (hd_kid h) (jwks_keys d) w w4), E5; reflexivity);
    injection Hpk as ->
  end.
  rewrite (bind_inr _ _ _ _ _ E5). cbv beta iota zeta.
  (* the build on the payload, from any world *)
  assert (Build : forall c wa, lib_payload lib tok = Some c ->
            M02.to_vresult (fst (M02.build_user_info c wa)) =
            match lib_payload lib tok with
            | Some c => M02.to_vresult (fst (M02.build_user_info c w))
            | None => M02.Rejected 401 "Token validation failed"
            end).
  { intros c wa Hp. rewrite Hp, (m02_build_fst_indep c wa w). reflexivity. }
  (* the relaxed decode, then the unverified one *)
  assert (Relaxed : forall wa,
    M02.to_vresult (fst (bind
      (bind (run_strategies (jwt_decode_verified lib tok k) 4
               [M02.relaxed_strategy (header_alg h)])
            (fun r2 => match r2 with
                       | Some c => ret c
                       | None => unverified_decode lib tok (HTTPExc 401 "Token validation failed")
                       end))
      M02.build_user_info wa)) =
    match lib_payload lib tok with
    | Some c => M02.to_vresult (fst (M02.build_user_info c w))
    | None => M02.Rejected 401 "Token validation failed"
    end).
  { intros wa. unfold bind.
    destruct (run_strategies (jwt_decode_verified lib tok k) 4
                [M02.relaxed_strategy (header_alg h)] wa) as [[e|r2] w6] eqn:E6;
      [exfalso; eapply run_strategies_never_raises; exact E6|].
    destruct r2 as [c|]; cbv beta iota delta [ret].
    - apply Build. eapply run_strategies_result. exact E6.
    - rewrite unverified_decode_eq.
      destruct (lib_payload lib tok) as [c|] eqn:Hp.
      + apply Build. reflexivity.
      + reflexivity. }
  match goal with |- context [bind (run_strategies ?dec 1 ?sts) _ ?w5'] =>
    destruct (run_strategies dec 1 sts w5') as [[e|r] w6] eqn:E6;
    [exfalso; eapply run_strategies_never_raises; exact E6|]
  end.
  rewrite (bind_inr _ _ _ _ _ E6). cbv beta.
  destruct r as [c|]; [destruct (claims_truthy c)|]; [|apply Relaxed|apply Relaxed].
  rewrite (bind_inr _ _ _ _ _ (eq_refl : ret c w6 = (inr c, w6))).
  apply Build. eapply run_strategies_result. exact E6.
Qed.

Lemma m02_decode_after_key_witness :
  fst (M02.verify_token lib_ex cfg_ex "tok.old" {| net := net_k1; log := [] |}) =
  M02.to_vresult (fst (M02.build_user_info old_claims {| net := net_k1; log := [] |})).
Proof.
  exact (m02_decode_after_key lib_ex cfg_ex "tok.old"
           {| hd_kid := Some "k1"; hd_alg := Some "RS256" |} 0
           {| doc_keys := Some [jwk_k1]; doc_other := 0 |} "pem-k1"
           {| net := net_k1; log := [] |}
           ltac:(discriminate) eq_refl eq_refl eq_refl).
Defined.


